(** * Session-based authentication (session_auth): credentials and sessions

    A shallow embedding of

    - [session_auth/routes/user.routes.js]: the [POST /signup] and
      [POST /login] handlers;
    - [session_auth/index.js]: the middleware chain of the application, with
      the global session middleware and the greeting route;
    - [session_auth/middlewares/auth.middleware.js]: [ensureAuthenticated];

    over a model of the two relations of [db/schema.js] and of the
    [node:crypto] primitives the handlers call. *)

From Stdlib Require Import String Ascii List Bool Arith NArith Lia.
Import ListNotations.
Local Open Scope string_scope.

(** ** node:crypto

    [randomBytes(n).toString('hex')] and
    [createHmac('sha256', key).update(msg).digest('hex')].  Octets are
    numbers below 256, 32-bit words are numbers below [2^32]: a sum is cut
    to its 32 low bits. *)

Module Crypto.
Local Open Scope N_scope.
Local Open Scope list_scope.

Definition octets (s : string) : list N :=
  map N_of_ascii (list_ascii_of_string s).

Definition hex_digit (d : N) : ascii :=
  match d with
  | 0 => "0" | 1 => "1" | 2 => "2" | 3 => "3" | 4 => "4" | 5 => "5"
  | 6 => "6" | 7 => "7" | 8 => "8" | 9 => "9" | 10 => "a" | 11 => "b"
  | 12 => "c" | 13 => "d" | 14 => "e" | _ => "f"
  end%char.

(** [Buffer.prototype.toString('hex')]: two lower-case digits per octet. *)
Fixpoint toString_hex (bs : list N) : string :=
  match bs with
  | [] => EmptyString
  | b :: rest =>
      String (hex_digit (N.shiftr b 4 mod 16))
        (String (hex_digit (b mod 16)) (toString_hex rest))
  end.

Definition w32 (x : N) : N := N.land x 0xffffffff.
Definition add32 (x y : N) : N := w32 (x + y).
Definition not32 (x : N) : N := N.lxor (w32 x) 0xffffffff.
Definition rotr (n x : N) : N :=
  N.lor (N.shiftr (w32 x) n) (w32 (N.shiftl (w32 x) (32 - n))).

Definition Ch (x y z : N) := N.lxor (N.land x y) (N.land (not32 x) z).
Definition Maj (x y z : N) :=
  N.lxor (N.lxor (N.land x y) (N.land x z)) (N.land y z).
Definition Sigma0 x := N.lxor (N.lxor (rotr 2 x) (rotr 13 x)) (rotr 22 x).
Definition Sigma1 x := N.lxor (N.lxor (rotr 6 x) (rotr 11 x)) (rotr 25 x).
Definition sigma0 x :=
  N.lxor (N.lxor (rotr 7 x) (rotr 18 x)) (N.shiftr (w32 x) 3).
Definition sigma1 x :=
  N.lxor (N.lxor (rotr 17 x) (rotr 19 x)) (N.shiftr (w32 x) 10).

(** The constants are the first 32 bits of the fractional parts of the
    square roots (initial hash value) and of the cube roots (round
    constants) of the first primes. *)
Definition prime (k : N) : bool :=
  forallb (fun d => negb (k mod N.of_nat d =? 0)) (seq 2 (N.to_nat k - 2)).

Definition primes (n : nat) : list N :=
  firstn n (filter prime (map N.of_nat (seq 2 310))).

Fixpoint cube_root (bits : nat) (x r : N) : N :=
  match bits with
  | O => r
  | S k =>
      let r' := r + N.shiftl 1 (N.of_nat k) in
      cube_root k x (if r' * r' * r' <=? x then r' else r)
  end.

Definition H256 : list N :=
  Eval vm_compute in
    map (fun p => w32 (N.sqrt (N.shiftl p 64))) (primes 8).

Definition K256 : list N :=
  Eval vm_compute in
    map (fun p => w32 (cube_root 40 (N.shiftl p 96) 0)) (primes 64).

(** Big-endian octets of a number, [n] octets wide. *)
Fixpoint be_octets (n : nat) (x : N) : list N :=
  match n with
  | O => []
  | S k => be_octets k (N.shiftr x 8) ++ [x mod 256]
  end.

Definition be_word (bs : list N) : N :=
  fold_left (fun acc b => N.shiftl acc 8 + b) bs 0.

(** Padding: a one bit, zeros up to 56 modulo 64, the bit length on 64
    bits. *)
Definition pad (msg : list N) : list N :=
  let len := N.of_nat (length msg) in
  let zeros := N.to_nat ((64 + 55 - len mod 64) mod 64) in
  msg ++ [0x80] ++ repeat 0 zeros ++ be_octets 8 (8 * len).

Fixpoint chunks (fuel size : nat) (l : list N) : list (list N) :=
  match fuel with
  | O => []
  | S f =>
      match l with
      | [] => []
      | _ => firstn size l :: chunks f size (skipn size l)
      end
  end.

(** The message schedule, newest word first: [W t] from the sixteen words
    before it. *)
Fixpoint schedule (n : nat) (rev_w : list N) : list N :=
  match n with
  | O => rev_w
  | S k =>
      let w := add32 (add32 (sigma1 (nth 1 rev_w 0)) (nth 6 rev_w 0))
                     (add32 (sigma0 (nth 14 rev_w 0)) (nth 15 rev_w 0)) in
      schedule k (w :: rev_w)
  end.

Record regs := Regs { ra : N; rb : N; rc : N; rd : N;
                      re : N; rf : N; rg : N; rh : N }.

Definition round (r : regs) (kw : N * N) : regs :=
  let (k, w) := kw in
  let t1 := add32 (add32 (add32 (rh r) (Sigma1 (re r)))
                         (add32 (Ch (re r) (rf r) (rg r)) k)) w in
  let t2 := add32 (Sigma0 (ra r)) (Maj (ra r) (rb r) (rc r)) in
  Regs (add32 t1 t2) (ra r) (rb r) (rc r) (add32 (rd r) t1) (re r) (rf r) (rg r).

Definition regs_of (h : list N) : regs :=
  Regs (nth 0 h 0) (nth 1 h 0) (nth 2 h 0) (nth 3 h 0)
       (nth 4 h 0) (nth 5 h 0) (nth 6 h 0) (nth 7 h 0).

Definition list_of (r : regs) : list N :=
  [ra r; rb r; rc r; rd r; re r; rf r; rg r; rh r].

Definition compress (h : list N) (block : list N) : list N :=
  let w16 := map be_word (chunks 16 4 block) in
  let w := rev (schedule 48 (rev w16)) in
  let r := fold_left round (combine K256 w) (regs_of h) in
  map (fun p => add32 (fst p) (snd p)) (combine h (list_of r)).

Definition sha256 (msg : list N) : list N :=
  let m := pad msg in
  let h := fold_left compress (chunks (length m) 64 m) H256 in
  flat_map (be_octets 4) h.

(** RFC 2104 over SHA-256, block size 64: a key longer than a block is
    hashed first, a shorter one is filled with zeros. *)
Definition hmac_sha256 (key msg : list N) : list N :=
  let k0 := if (64 <? length key)%nat then sha256 key else key in
  let k := k0 ++ repeat 0 (64 - length k0) in
  let ipad := map (N.lxor 0x36) k in
  let opad := map (N.lxor 0x5c) k in
  sha256 (opad ++ sha256 (ipad ++ msg)).

(** [createHmac('sha256', key).update(msg).digest('hex')] on two strings. *)
Definition createHmac_sha256_hex (key msg : string) : string :=
  toString_hex (hmac_sha256 (octets key) (octets msg)).

End Crypto.

(** ** Values of the request

    A request header, like a nullable text column, is [undefined] or a
    string.  A member of [req.body] is any JSON value, or absent. *)

Definition jsval := option string.

(** [!v] *)
Definition falsy (v : jsval) : bool :=
  match v with
  | None => true
  | Some s => match s with EmptyString => true | _ => false end
  end.

(** [`${v}`] *)
Definition template (v : jsval) : string :=
  match v with
  | None => "undefined"
  | Some s => s
  end.

(** A member of [req.body].  A number comes with its decimal text, the one
    [String(n)] and [n.toString()] give; an array or an object with its
    text [String(v)] and with the text the driver sends for it as a query
    parameter. *)
Inductive field :=
| Absent
| Null
| Bool (b : bool)
| Number (text : string)
| Str (s : string)
| Composite (text sent : string).

(** [!v]: of the numbers only zero is falsy, whose text is 0. *)
Definition falsy_field (v : field) : bool :=
  match v with
  | Absent | Null => true
  | Bool b => negb b
  | Number text => String.eqb text "0"
  | Str s => match s with EmptyString => true | _ => false end
  | Composite _ _ => false
  end.

(** [`${v}`] *)
Definition template_field (v : field) : string :=
  match v with
  | Absent => "undefined"
  | Null => "null"
  | Bool true => "true"
  | Bool false => "false"
  | Number text => text
  | Str s => s
  | Composite text _ => text
  end.

(** The value as the driver sends it for a query parameter: [NULL] for
    [undefined] and [null], a string as it is, [toString()] of a number or
    a boolean, the array or JSON text of an array or an object. *)
Definition param (v : field) : jsval :=
  match v with
  | Absent | Null => None
  | Bool true => Some "true"
  | Bool false => Some "false"
  | Number text => Some text
  | Str s => Some s
  | Composite _ sent => Some sent
  end.

(** The value where a string is required: [update(v)] takes a string and
    throws on any other value of a body. *)
Definition as_string (v : field) : jsval :=
  match v with
  | Str s => Some s
  | _ => None
  end.

(** A JSON object whose members are strings, in the order they are
    written; also a row returned by a query. *)
Definition object := list (string * string).

Fixpoint get (o : object) (k : string) : jsval :=
  match o with
  | [] => None
  | (k', v) :: rest => if String.eqb k' k then Some v else get rest k
  end.

Definition keys (o : object) : list string := map fst o.

Inductive payload :=
| Json (o : object)
| Text (s : string).

Record response := Response { status : nat; sent : payload }.

(** [res.status(code).json(o)] *)
Definition json (code : nat) (o : object) : response := Response code (Json o).

(** What a rejected handler carries. *)
Inductive store_error :=
| ConnectionFailure
| NotNullViolation (column : string)
| StringTooLong (column : string)
| InvalidByteSequence (column : string)
| UniqueViolation (constraint : string)
| ForeignKeyViolation (constraint : string)
| InvalidUuidSyntax (text : string).

Inductive error :=
| TypeError (message : string)
| StoreError (e : store_error).

(** ** The uuid type of the store *)

Module Uuid.
Local Open Scope list_scope.

Definition is_xdigit (c : ascii) : bool :=
  let n := nat_of_ascii c in
  (Nat.leb 48 n && Nat.leb n 57) || (Nat.leb 97 n && Nat.leb n 102)
  || (Nat.leb 65 n && Nat.leb n 70).

Definition lower (c : ascii) : ascii :=
  let n := nat_of_ascii c in
  if Nat.leb 65 n && Nat.leb n 90 then ascii_of_nat (n + 32) else c.

Definition hyphen : ascii := "-"%char.

(** Sixteen octets of two hexadecimal digits; a hyphen may follow an octet
    of odd index other than the last. *)
Fixpoint digits (i n : nat) (src : list ascii) : option (list ascii * list ascii) :=
  match n with
  | O => Some ([], src)
  | S k =>
      match src with
      | h :: l :: rest =>
          if is_xdigit h && is_xdigit l then
            let rest' :=
              match rest with
              | c :: r =>
                  if Ascii.eqb c hyphen && Nat.odd i && Nat.ltb i 15 then r else rest
              | [] => rest
              end in
            match digits (S i) k rest' with
            | Some (ds, tl) => Some (lower h :: lower l :: ds, tl)
            | None => None
            end
          else None
      | _ => None
      end
  end.

(** The text of a uuid value: 8-4-4-4-12 lower-case digits. *)
Definition out (ds : list ascii) : string :=
  string_of_list_ascii
    (firstn 8 ds ++ hyphen :: firstn 4 (skipn 8 ds)
     ++ hyphen :: firstn 4 (skipn 12 ds)
     ++ hyphen :: firstn 4 (skipn 16 ds) ++ hyphen :: skipn 20 ds).

(** Input of a uuid value from text, braces allowed around it; [None] is
    the error "invalid input syntax for type uuid". *)
Definition parse (text : string) : option string :=
  let src := list_ascii_of_string text in
  let braces :=
    match src with
    | c :: _ => Ascii.eqb c "{"
    | [] => false
    end in
  match digits 0 16 (if braces then tl src else src) with
  | Some (ds, rest) =>
      match rest with
      | [] => if braces then None else Some (out ds)
      | [c] => if braces && Ascii.eqb c "}" then Some (out ds) else None
      | _ => None
      end
  | None => None
  end.

(** [gen_random_uuid()]: version 4, variant 1, the other bits drawn. *)
Definition v4 (entropy : nat -> N) : string :=
  let octet i :=
    let b := (entropy i mod 256)%N in
    match i with
    | 6 => N.lor 0x40 (N.land b 0x0f)
    | 8 => N.lor 0x80 (N.land b 0x3f)
    | _ => b
    end in
  out (list_ascii_of_string (Crypto.toString_hex (map octet (seq 0 16)))).

End Uuid.

(** ** The relational store

    [db/schema.js] is not among the sources.  Its two tables are listed in
    [session_auth/README.md]:
<<
    usersTable    id uuid primary key default random, name varchar(255) not null,
                  email varchar(255) not null unique, password text not null, salt text
    userSessions  id uuid primary key default random, userId uuid references users(id),
                  createdAt timestamp default now not null
>>
    A uuid value is kept as its text. *)

(** Modelled from the spec: the table [usersTable] of [db/schema.js], which
    is missing; the credential record of the data model (email as unique
    key, display name, password hash, salt), with the columns of the listing
    above. *)
Record user := User {
  u_id : string;
  u_name : string;
  u_email : string;
  u_password : string;
  u_salt : jsval
}.

(** Modelled from the spec: the table [userSessions] of [db/schema.js],
    which is missing; the session record of the data model (identifier,
    owning credential, creation time), with the columns of the listing
    above. *)
Record session := Session {
  s_id : string;
  s_userId : jsval;
  s_createdAt : N
}.

Record db := Db { users : list user; sessions : list session }.

(** The queries the handlers send. *)
Inductive query :=
| SelectUserEmail (email : jsval)
| SelectUserCredential (email : jsval)
| InsertUser (name email : jsval) (password salt : string)
| InsertSession (userId : string)
| SelectSessionUser (sessionId : jsval).

Inductive layer :=
| UserSignup
| UserLogin
| SessionMiddleware
| Greeting
| NotFound.

(** What one request draws from outside: the octets of [randomBytes], the
    bits of the uuid a new row gets, the clock, and whether the store is
    out of reach at the i-th query of the request. *)
Record env := Env {
  random_octet : nat -> N;
  uuid_entropy : nat -> N;
  clock : N;
  outage : nat -> bool
}.

(** [randomBytes(n)]: the first [n] octets the environment draws. *)
Definition randomBytes (e : env) (n : nat) : list N :=
  map (fun i => (random_octet e i mod 256)%N) (seq 0 n).

(** The salt a signup draws and the uuid the store gives a new row. *)
Definition salt_of (e : env) : string := Crypto.toString_hex (randomBytes e 256).
Definition new_id (e : env) : string := Uuid.v4 (uuid_entropy e).

Record state := State {
  st_db : db;
  st_log : list query;
  st_visited : list layer
}.

(** ** Handlers as computations

    An [async] handler reads the environment, changes the store and ends by
    a value or by a rejection.  Nothing in the sources catches a rejection:
    a handler that ends by [inl _] has sent no response. *)

Definition M (A : Type) : Type := env -> state -> (error + A) * state.

Definition ret {A} (a : A) : M A := fun _ st => (inr a, st).

Definition bind {A B} (m : M A) (f : A -> M B) : M B :=
  fun e st =>
    match m e st with
    | (inl err, st') => (inl err, st')
    | (inr a, st') => f a e st'
    end.

Definition throw {A} (err : error) : M A := fun _ st => (inl err, st).

Definition ask : M env := fun e st => (inr e, st).

Definition enter (l : layer) : M unit :=
  fun _ st => (inr tt, State (st_db st) (st_log st) (st_visited st ++ [l])).

Declare Scope js_scope.
Delimit Scope js_scope with js.
Notation "x <- m ;; k" := (bind m (fun x => k))
  (at level 61, m at next level, right associativity) : js_scope.
Notation "m ;;; k" := (bind m (fun _ => k))
  (at level 61, right associativity) : js_scope.
Local Open Scope js_scope.

(** [await db.<query>]: the query is sent; it fails when the store is out
    of reach or when the store refuses it, and the tables change only when
    it succeeds. *)
Definition await {A} (q : query) (exec : env -> db -> store_error + A * db) : M A :=
  fun e st =>
    let log' := (st_log st ++ [q])%list in
    if outage e (length (st_log st)) then
      (inl (StoreError ConnectionFailure), State (st_db st) log' (st_visited st))
    else
      match exec e (st_db st) with
      | inl err => (inl (StoreError err), State (st_db st) log' (st_visited st))
      | inr (a, d') => (inr a, State d' log' (st_visited st))
      end.

Definition run {A} (m : M A) (e : env) (d : db) : (error + A) * state :=
  m e (State d [] []).

(** [col = $1] on a text column: never true of [NULL]. *)
Definition eq_text (col : string) (param : jsval) : bool :=
  match param with
  | Some v => String.eqb col v
  | None => false
  end.

(** *** Text values of the store

    A string is the UTF-8 text of a JavaScript string.  The store takes no
    text that holds the octet 0.  A [varchar(n)] column counts characters,
    not octets: a value of more than [n] characters is refused unless what
    exceeds is spaces only, and is then stored cut to [n] characters. *)

Definition text_in (s : string) : bool :=
  forallb (fun c => negb (Ascii.eqb c zero)) (list_ascii_of_string s).

(** An octet that continues a character: [10xxxxxx]. *)
Definition continuation (c : ascii) : bool :=
  let n := nat_of_ascii c in Nat.leb 128 n && Nat.ltb n 192.

(** The number of characters of a text. *)
Fixpoint chars (s : string) : nat :=
  match s with
  | EmptyString => 0
  | String c rest => if continuation c then chars rest else S (chars rest)
  end.

(** The first [n] characters of a text, and what follows them. *)
Fixpoint split_chars (n : nat) (s : string) : string * string :=
  match s with
  | EmptyString => (EmptyString, EmptyString)
  | String c rest =>
      if continuation c then
        let (taken, left) := split_chars n rest in (String c taken, left)
      else
        match n with
        | O => (EmptyString, s)
        | S k => let (taken, left) := split_chars k rest in (String c taken, left)
        end
  end.

Definition spaces (s : string) : bool :=
  forallb (fun c => Ascii.eqb c " "%char) (list_ascii_of_string s).

(** What a [varchar(n)] column stores for a value assigned to it. *)
Definition varchar (n : nat) (column s : string) : store_error + string :=
  let (taken, left) := split_chars n s in
  if spaces left then inr taken else inl (StringTooLong column).

(** [.from(usersTable).where((table) => eq(table.email, email))] *)
Definition matching (d : db) (email : jsval) : list user :=
  filter (fun u => eq_text (u_email u) email) (users d).

(** A text parameter as the store reads it, before the query runs:
    [NULL] passes, a text that holds the octet 0 is refused. *)
Definition text_param (column : string) (v : jsval) : option store_error :=
  match v with
  | Some s => if text_in s then None else Some (InvalidByteSequence column)
  | None => None
  end.

(** The value assigned to a [varchar(n)] column; [NULL] stays [NULL]. *)
Definition assign (n : nat) (column : string) (v : jsval) : store_error + jsval :=
  match v with
  | Some s =>
      match varchar n column s with
      | inl err => inl err
      | inr stored => inr (Some stored)
      end
  | None => inr None
  end.

(** What the store does with the lookup of the users by email. *)
Definition find_users (email : jsval) (e : env) (d : db) : store_error + list user * db :=
  match text_param "email" email with
  | Some err => inl err
  | None => inr (matching d email, d)
  end.

(** [db.select({email}).from(usersTable).where(eq(email, $1))] *)
Definition select_user_email (email : jsval) : M (list object) :=
  found <- await (SelectUserEmail email) (find_users email) ;;
  ret (map (fun u => [("email", u_email u)]) found).

(** [db.select({id, email, salt, password}).from(usersTable).where(eq(email, $1))] *)
Definition select_user_credential (email : jsval) : M (list user) :=
  await (SelectUserCredential email) (find_users email).

(** What the store does with the insert of a user: the parameters are
    read as text, the values of the row are formed, then the constraints
    are checked, not-null before the unique indexes. *)
Definition add_user (name email : jsval) (password salt : string) (e : env) (d : db) :
  store_error + list object * db :=
  let id := new_id e in
  match text_param "name" name, text_param "email" email with
  | Some err, _ => inl err
  | None, Some err => inl err
  | None, None =>
      match assign 255 "name" name, assign 255 "email" email with
      | inl err, _ => inl err
      | inr _, inl err => inl err
      | inr None, inr _ => inl (NotNullViolation "name")
      | inr (Some _), inr None => inl (NotNullViolation "email")
      | inr (Some n), inr (Some m) =>
          if existsb (fun u => String.eqb (u_id u) id) (users d)
            then inl (UniqueViolation "users_pkey")
          else if existsb (fun u => String.eqb (u_email u) m) (users d)
            then inl (UniqueViolation "users_email_unique")
          else inr ([[("id", id)]],
                    Db (users d ++ [User id n m password (Some salt)])%list
                       (sessions d))
      end
  end.

(** [db.insert(usersTable).values({name, email, password, salt}).returning({id})];
    the password and the salt it is given are hexadecimal text. *)
Definition insert_user (name email : jsval) (password salt : string) : M (list object) :=
  await (InsertUser name email password salt) (add_user name email password salt).

(** What the store does with the insert of a session. *)
Definition add_session (userId : string) (e : env) (d : db) :
  store_error + list object * db :=
  let id := new_id e in
  match Uuid.parse userId with
  | None => inl (InvalidUuidSyntax userId)
  | Some uid =>
      if existsb (fun s => String.eqb (s_id s) id) (sessions d)
        then inl (UniqueViolation "user_sessions_pkey")
      else if negb (existsb (fun u => String.eqb (u_id u) uid) (users d))
        then inl (ForeignKeyViolation "user_sessions_userId_users_id_fk")
      else inr ([[("id", id)]],
                Db (users d) (sessions d ++ [Session id (Some uid) (clock e)])%list)
  end.

(** [db.insert(userSessions).values({userId}).returning({id})] *)
Definition insert_session (userId : string) : M (list object) :=
  await (InsertSession userId) (add_session userId).

(** [db.select({id, userId, name, email}).from(userSessions)
       .innerJoin(usersTable, eq(userSessions.userId, usersTable.id))
       .where(eq(userSessions.id, $1))] *)
Definition joined (d : db) (id : string) : list object :=
  flat_map (fun s =>
    if String.eqb (s_id s) id then
      flat_map (fun u =>
        if eq_text (u_id u) (s_userId s) then
          [[("id", s_id s); ("userId", u_id u); ("name", u_name u); ("email", u_email u)]]
        else []) (users d)
    else []) (sessions d).

Definition select_session_user (sessionId : jsval) : M (list object) :=
  await (SelectSessionUser sessionId) (fun _ d =>
    match sessionId with
    | None => inr ([], d)
    | Some text =>
        match Uuid.parse text with
        | None => inl (InvalidUuidSyntax text)
        | Some id => inr (joined d id, d)
        end
    end).

(** ** routes/user.routes.js *)

(** [createHmac('sha256', key).update(data).digest('hex')]: each call
    throws on an argument that is not a string. *)
Definition createHmac_sha256 (key data : jsval) : M string :=
  match key with
  | None => throw (TypeError "The key argument must be of type string")
  | Some k =>
      match data with
      | None => throw (TypeError "The data argument must be of type string")
      | Some d => ret (Crypto.createHmac_sha256_hex k d)
      end
  end.

(** [randomBytes(n).toString('hex')] *)
Definition randomBytes_hex (n : nat) : M string :=
  e <- ask ;;
  ret (Crypto.toString_hex (randomBytes e n)).

Arguments Crypto.createHmac_sha256_hex : simpl never.
Arguments Crypto.toString_hex : simpl never.
Arguments randomBytes : simpl never.
Arguments Uuid.parse : simpl never.
Arguments Uuid.v4 : simpl never.
Arguments new_id : simpl never.

(** [row.id] of [const [row] = rows] *)
Definition returned_id (rows : list object) : M string :=
  match hd_error rows with
  | Some row => ret (template (get row "id"))
  | None => throw (TypeError "Cannot read properties of undefined")
  end.

Record body := Body { name : field; email : field; password : field }.

Definition duplicate_error (email : field) : object :=
  [("error", "User with email " ++ template_field email ++ " already exists")].

Definition required_error : object :=
  [("error", "Email and password are required")].

Definition credentials_error : object :=
  [("error", "User does not exists with the provided email or password")].

(** [router.post('/signup', ...)] *)
Definition signup (b : body) : M response :=
  enter UserSignup ;;;
  rows <- select_user_email (param (email b)) ;;
  match hd_error rows with
  | Some existingUser => ret (json 400 (duplicate_error (email b)))
  | None =>
      salt <- randomBytes_hex 256 ;;
      hashedPassword <- createHmac_sha256 (Some salt) (as_string (password b)) ;;
      rows <- insert_user (param (name b)) (param (email b)) hashedPassword salt ;;
      id <- returned_id rows ;;
      ret (json 201 [("userId", id); ("message", "User created successfully")])
  end.

(** [router.post('/login', ...)] *)
Definition login (b : body) : M response :=
  enter UserLogin ;;;
  if falsy_field (email b) || falsy_field (password b) then
    ret (json 400 required_error)
  else
    rows <- select_user_credential (param (email b)) ;;
    match hd_error rows with
    | None => ret (json 400 credentials_error)
    | Some existingUser =>
        hashedPassword <-
          createHmac_sha256 (u_salt existingUser) (as_string (password b)) ;;
        if negb (String.eqb hashedPassword (u_password existingUser)) then
          ret (json 400 credentials_error)
        else
          rows <- insert_session (u_id existingUser) ;;
          id <- returned_id rows ;;
          ret (json 200 [("message", "Login successfully"); ("sessionId", id)])
    end.

(** ** middlewares/auth.middleware.js *)

(** A middleware ends by sending a response or by [next()], with what it
    left in [req.user]. *)
Inductive action :=
| Send (r : response)
| Next (user : option object).

Definition ensureAuthenticated (user : option object) : action :=
  match user with
  | None => Send (json 401 [("error", "You must be authenticated")])
  | Some _ => Next user
  end.

(** ** index.js

    The application with the global session middleware.  [request] is the
    request as [app.use(express.json())] hands it on, and [app] the layers
    that follow that one; the parser and the whole application are
    [index_js] below. *)

Inductive method := GET | HEAD | POST | PUT | PATCH | DELETE.

(** A request after [express.json()]: the path as its segments, the
    [session-id] header, the members of the parsed body ([req.body] is
    the empty object when the request brings no JSON).  The handlers read
    no other header; the requests are those without the headers of a
    conditional request. *)
Record request := Request {
  verb : method;
  path : list string;
  session_id : jsval;
  req_body : body
}.

(** [app.use('/', async (req, res, next) => ...)] *)
Definition session_middleware (sessionId : jsval) : M action :=
  enter SessionMiddleware ;;;
  if falsy sessionId then
    ret (Send (json 401 [("error", "No session ID provided")]))
  else
    rows <- select_session_user sessionId ;;
    match hd_error rows with
    | None => ret (Send (json 401 [("error", "Invalid session ID")]))
    | Some session => ret (Next (Some session))
    end.

(** Route paths are matched without regard to case. *)
Definition segment (s : string) : string :=
  string_of_list_ascii (map Uuid.lower (list_ascii_of_string s)).

(** [app.use('/user', router)]: the route of the router the request
    matches, if any. *)
Definition user_router (req : request) : option (M response) :=
  match map segment (path req) with
  | [u; r] =>
      if String.eqb u "user" then
        match verb req with
        | POST =>
            if String.eqb r "signup" then Some (signup (req_body req))
            else if String.eqb r "login" then Some (login (req_body req))
            else None
        | _ => None
        end
      else None
  | _ => None
  end.

Definition method_name (m : method) : string :=
  match m with
  | GET => "GET" | HEAD => "HEAD" | POST => "POST"
  | PUT => "PUT" | PATCH => "PATCH" | DELETE => "DELETE"
  end.

(** [app.get('/', (req, res) => res.send('Hello, World!'))], which also
    takes HEAD; a request no route takes ends in the 404 of the framework. *)
Definition routes (req : request) : M response :=
  match verb req, path req with
  | GET, [] | HEAD, [] =>
      enter Greeting ;;; ret (Response 200 (Text "Hello, World!"))
  | m, p =>
      enter NotFound ;;;
      ret (Response 404 (Text ("Cannot " ++ method_name m ++ " /" ++ String.concat "/" p)))
  end.

(** The application: the router, then the session middleware, then the
    routes declared after it. *)
Definition app (req : request) : M response :=
  match user_router req with
  | Some handler => handler
  | None =>
      a <- session_middleware (session_id req) ;;
      match a with
      | Send r => ret r
      | Next user => routes req
      end
  end.

(** [app.use(express.json())], the first layer: it reads and parses the
    payload, and either hands the request on with [req.body] set or ends it
    with an error, of status 400 for a payload that is not JSON and 413 for
    one over the limit; the error goes to the error handler of the
    framework, which answers with that status, and no later layer runs.
    Which payloads the parser refuses is its own matter: a request comes
    with what the parser made of it, [refused] being the answer to its
    error if it ends the request, and [handed] the request, with the body
    the parser has set when it hands the request on. *)
Record incoming := Incoming {
  handed : request;
  refused : option response
}.

(** The application of [index.js], all its layers. *)
Definition index_js (i : incoming) : M response :=
  match refused i with
  | Some r => ret r
  | None => app (handed i)
  end.

(** ** Predicates of the statements *)

(** The [k]-th query of a request fails with [err]: the store is out of
    reach, or it refuses the query. *)
Definition fails {A} (exec : env -> db -> store_error + A * db)
  (k : nat) (e : env) (d : db) (err : store_error) : Prop :=
  (outage e k = true /\ err = ConnectionFailure)
  \/ (outage e k = false /\ exec e d = inl err).

(** A lower-case hexadecimal digit, as the text of a stored uuid has them. *)
Definition canonical_digit (c : ascii) : Prop :=
  Uuid.is_xdigit c = true /\ Uuid.lower c = c
  /\ Ascii.eqb c Uuid.hyphen = false /\ Ascii.eqb c "{" = false.

(** What [Uuid.digits] does with the pair of digits of one octet. *)
Definition push (h l : ascii) (r : option (list ascii * list ascii)) :
  option (list ascii * list ascii) :=
  match r with
  | Some (ds, rest) => Some (h :: l :: ds, rest)
  | None => None
  end.

(** A query on the users table or an insert: anything but the lookup of a
    session. *)
Definition user_query (q : query) : Prop :=
  match q with
  | SelectSessionUser _ => False
  | _ => True
  end.

(** ** Sample requests

    The requests of the walkthrough in [session_auth/README.md], two
    environments with the store in reach and one without. *)

Definition env0 : env :=
  Env (fun i => N.of_nat (37 * i + 11)) (fun i => N.of_nat (73 * i + 5))
      1767225600 (fun _ => false).

Definition env1 : env :=
  Env (fun i => N.of_nat (91 * i + 3)) (fun i => N.of_nat (29 * i + 17))
      1767225660 (fun _ => false).

Definition env_down : env :=
  Env (fun i => N.of_nat i) (fun i => N.of_nat i) 1767225720 (fun _ => true).

(** The store goes out of reach after the first query of the request. *)
Definition env_cut : env :=
  Env (fun i => N.of_nat (37 * i + 11)) (fun i => N.of_nat (73 * i + 5))
      1767225600 (fun i => Nat.leb 1 i).

Definition no_db : db := Db [] [].

Definition john : body :=
  Body (Str "John Doe") (Str "john@example.com") (Str "mySecurePassword123").

(** An email of 256 characters, the last one a space. *)
Definition long_email : string :=
  fold_right append EmptyString (repeat "a" 243) ++ "@example.com ".

(** The value a run ended by and the store it left. *)
Definition reply {A} (x : (error + A) * state) : error + A := fst x.
Definition store {A} (x : (error + A) * state) : db := st_db (snd x).

(** The store after John has signed up and logged in. *)
Definition store1 : db :=
  store (run (login john) env1 (store (run (signup john) env0 no_db))).

(** [GET /] with a given session-id header. *)
Definition greeting_request (h : jsval) : request :=
  Request GET [] h (Body Absent Absent Absent).

(** The answer to a payload over the limit of the parser. *)
Definition payload_too_large : response :=
  Response 413 (Text "PayloadTooLargeError: request entity too large").

(** The text of a uuid no session has. *)
Definition unknown_id : string := "794599f3-d5b5-42ac-9986-2b468e74c30a".

(** ** index.js, as listed first

    [session_auth/index.js] before the session middleware was added: the
    router, then the greeting route. *)
Definition app_v1 (req : request) : M response :=
  match user_router req with
  | Some handler => handler
  | None => routes req
  end.

(** ** Requests one after the other

    Each request comes with what it draws from outside; the store a request
    leaves is the store the next one finds.  The requests are those the
    parser hands on: one it refuses reaches no layer and no query. *)
Fixpoint serve (rs : list (request * env)) (d : db) : db :=
  match rs with
  | [] => d
  | (req, e) :: rest => serve rest (store (run (app req) e d))
  end.

(** The constraints of the two tables: primary keys, the unique email, ids
    that are the text of a uuid, and an owner for every session. *)
Definition well_formed (d : db) : Prop :=
  NoDup (map u_id (users d))
  /\ NoDup (map u_email (users d))
  /\ NoDup (map s_id (sessions d))
  /\ (forall u, In u (users d) -> Uuid.parse (u_id u) = Some (u_id u))
  /\ (forall s, In s (sessions d) ->
      exists u, In u (users d) /\ s_userId s = Some (u_id u)).

(** [l'] is [l] with records added at its end. *)
Definition extends {A} (l l' : list A) : Prop := exists more, l' = (l ++ more)%list.

(** ** What a request may do to the store

    Nothing, or one credential record added at the end of its table, or one
    session record added at the end of its table. *)
Inductive effect (e : env) (d d' : db) : Prop :=
| Unchanged : d' = d -> effect e d d'
| UserAdded (n m h : string) :
    existsb (fun u => String.eqb (u_id u) (new_id e)) (users d) = false ->
    existsb (fun u => String.eqb (u_email u) m) (users d) = false ->
    d' = Db (users d ++ [User (new_id e) n m h (Some (salt_of e))])%list (sessions d) ->
    effect e d d'
| SessionAdded (uid : string) :
    existsb (fun s => String.eqb (s_id s) (new_id e)) (sessions d) = false ->
    existsb (fun u => String.eqb (u_id u) uid) (users d) = true ->
    d' = Db (users d) (sessions d ++ [Session (new_id e) (Some uid) (clock e)])%list ->
    effect e d d'.

(** ** Lower-case hexadecimal text *)



(** ** More sample requests *)

Definition env2 : env :=
  Env (fun i => N.of_nat (5 * i + 1)) (fun i => N.of_nat (11 * i + 7))
      1767225780 (fun _ => false).

Definition jane : body :=
  Body (Str "Jane Doe") (Str "jane@example.com") (Str "anotherPassword456").

(** The store after John has signed up. *)
Definition store0 : db := store (run (signup john) env0 no_db).

(** Requests of other callers: a signup, a request with a bad token, a
    login with a wrong password, a login. *)
Definition traffic : list (request * env) :=
  [ (Request POST ["user"; "signup"] None jane, env2);
    (greeting_request (Some "not-a-real-id"), env0);
    (Request POST ["user"; "login"] None
       (Body Absent (Str "john@example.com") (Str "guess")), env0);
    (Request POST ["user"; "login"] None jane, env0) ].

(** * Properties *)

(** ** Test vectors of the primitives *)

Example sha256_abc :
  Crypto.toString_hex (Crypto.sha256 (Crypto.octets "abc"))
  = "ba7816bf8f01cfea414140de5dae2223b00361a396177a9cb410ff61f20015ad".
Proof. vm_compute. reflexivity. Qed.

Example sha256_constants :
  hd 0%N Crypto.H256 = 0x6a09e667%N /\ hd 0%N Crypto.K256 = 0x428a2f98%N
  /\ last Crypto.K256 0%N = 0xc67178f2%N
  /\ length Crypto.H256 = 8 /\ length Crypto.K256 = 64.
Proof. repeat split; reflexivity. Qed.

Example sha256_empty :
  Crypto.toString_hex (Crypto.sha256 [])
  = "e3b0c44298fc1c149afbf4c8996fb92427ae41e4649b934ca495991b7852b855".
Proof. vm_compute. reflexivity. Qed.

Example hmac_rfc4231_case2 :
  Crypto.createHmac_sha256_hex "Jefe" "what do ya want for nothing?"
  = "5bdcc146bf60754e6a042426089575c75a003f089d2739839dec58b964ec3843".
Proof. vm_compute. reflexivity. Qed.

Example uuid_parse_canonical :
  Uuid.parse "794599f3-d5b5-42ac-9986-2b468e74c30a"
  = Some "794599f3-d5b5-42ac-9986-2b468e74c30a".
Proof. reflexivity. Qed.

Example uuid_parse_braces_upper :
  Uuid.parse "{794599F3D5B5-42AC-99862B468E74C30A}"
  = Some "794599f3-d5b5-42ac-9986-2b468e74c30a".
Proof. reflexivity. Qed.

Example uuid_parse_rejects :
  Uuid.parse "not-a-real-id" = None
  /\ Uuid.parse "794599f3-d5b5-42ac-9986-2b468e74c30" = None
  /\ Uuid.parse "7-94599f3d5b542ac99862b468e74c30a" = None.
Proof. repeat split; reflexivity. Qed.

(** ** The text of a generated uuid reads back as itself *)

Lemma hex_digit_canonical : forall d, canonical_digit (Crypto.hex_digit d).
Proof.
  intros d; unfold canonical_digit.
  destruct d as [|p]; [repeat split; reflexivity|].
  do 4 (try (destruct p as [p|p|])); repeat split; reflexivity.
Qed.

Lemma toString_hex_canonical : forall bs,
  Forall canonical_digit (list_ascii_of_string (Crypto.toString_hex bs)).
Proof.
  induction bs as [|b bs IH]; simpl.
  - constructor.
  - constructor; [apply hex_digit_canonical|].
    constructor; [apply hex_digit_canonical|exact IH].
Qed.

Lemma toString_hex_length : forall bs,
  length (list_ascii_of_string (Crypto.toString_hex bs)) = 2 * length bs.
Proof.
  induction bs as [|b bs IH]; simpl; [reflexivity|].
  rewrite IH; lia.
Qed.

Lemma digits_octet : forall i k h l c rest,
  canonical_digit h -> canonical_digit l -> canonical_digit c ->
  Uuid.digits i (S k) (h :: l :: c :: rest)
  = push h l (Uuid.digits (S i) k (c :: rest)).
Proof.
  intros i k h l c rest (Hh & Lh & _) (Hl & Ll & _) (_ & _ & Hc & _).
  cbn [Uuid.digits]. rewrite Hh, Hl, Hc, Lh, Ll. reflexivity.
Qed.

Lemma digits_octet_hyphen : forall i k h l rest,
  canonical_digit h -> canonical_digit l ->
  Nat.odd i && Nat.ltb i 15 = true ->
  Uuid.digits i (S k) (h :: l :: Uuid.hyphen :: rest)
  = push h l (Uuid.digits (S i) k rest).
Proof.
  intros i k h l rest (Hh & Lh & _) (Hl & Ll & _) Hi.
  cbn [Uuid.digits]. rewrite Hh, Hl, Lh, Ll.
  replace (Ascii.eqb Uuid.hyphen Uuid.hyphen) with true by reflexivity.
  cbn [andb]. rewrite Hi. reflexivity.
Qed.

Lemma digits_last : forall i h l,
  canonical_digit h -> canonical_digit l ->
  Uuid.digits i 1 [h; l] = Some ([h; l], []).
Proof.
  intros i h l (Hh & Lh & _) (Hl & Ll & _).
  cbn [Uuid.digits]. rewrite Hh, Hl, Lh, Ll. reflexivity.
Qed.

Lemma parse_out : forall ds,
  length ds = 32 -> Forall canonical_digit ds ->
  Uuid.parse (Uuid.out ds) = Some (Uuid.out ds).
Proof.
  intros ds Hlen Hall.
  do 32 (destruct ds as [|? ds]; [discriminate Hlen|]).
  destruct ds; [|discriminate Hlen]. clear Hlen.
  repeat match goal with
         | H : Forall _ (_ :: _) |- _ => inversion H; subst; clear H
         end.
  unfold Uuid.parse, Uuid.out.
  rewrite list_ascii_of_string_of_list_ascii.
  cbn [firstn skipn Datatypes.app tl].
  match goal with
  | H : canonical_digit ?c |- context [Ascii.eqb ?c "{"%char] =>
      let E := fresh in
      pose proof H as E; destruct E as (_ & _ & _ & E); rewrite E
  end.
  repeat first
    [ rewrite digits_octet_hyphen by (assumption || reflexivity)
    | rewrite digits_octet by assumption
    | rewrite digits_last by assumption ].
  reflexivity.
Qed.

Lemma parse_v4 : forall entropy,
  Uuid.parse (Uuid.v4 entropy) = Some (Uuid.v4 entropy).
Proof.
  intros entropy. unfold Uuid.v4. apply parse_out.
  - rewrite toString_hex_length, length_map, length_seq. reflexivity.
  - apply toString_hex_canonical.
Qed.

(** ** Text values of the store *)

Lemma split_chars_short : forall s n,
  chars s <= n -> split_chars n s = (s, EmptyString).
Proof.
  induction s as [|c s IH]; intros n H; cbn [split_chars chars] in *.
  - reflexivity.
  - destruct (continuation c).
    + rewrite (IH n H). reflexivity.
    + destruct n as [|k]; [lia|]. rewrite (IH k); [reflexivity|lia].
Qed.

(** A value of at most [n] characters is stored as it is. *)
Lemma varchar_short : forall n column s,
  chars s <= n -> varchar n column s = inr s.
Proof.
  intros n column s H. unfold varchar. rewrite (split_chars_short s n H).
  reflexivity.
Qed.

Lemma split_chars_text : forall s n,
  text_in s = true -> text_in (fst (split_chars n s)) = true.
Proof.
  unfold text_in.
  induction s as [|c s IH]; intros n H; cbn [split_chars] in *.
  - reflexivity.
  - cbn [list_ascii_of_string forallb] in H.
    apply andb_prop in H. destruct H as [Hc Hs].
    destruct (continuation c).
    + specialize (IH n Hs). destruct (split_chars n s) as [taken left].
      cbn [fst list_ascii_of_string forallb] in *. rewrite Hc, IH. reflexivity.
    + destruct n as [|k]; [reflexivity|].
      specialize (IH k Hs). destruct (split_chars k s) as [taken left].
      cbn [fst list_ascii_of_string forallb] in *. rewrite Hc, IH. reflexivity.
Qed.

(** What a [varchar(n)] column stores of a text is a text. *)
Lemma varchar_text : forall n column s stored,
  text_in s = true -> varchar n column s = inr stored -> text_in stored = true.
Proof.
  intros n column s stored Hs H. unfold varchar in H.
  pose proof (split_chars_text s n Hs) as Ht.
  destruct (split_chars n s) as [taken left]. cbn [fst] in Ht.
  destruct (spaces left); [|discriminate]. inversion H; subst. exact Ht.
Qed.

Lemma split_chars_fits : forall s n, chars (fst (split_chars n s)) <= n.
Proof.
  induction s as [|c s IH]; intros n; cbn [split_chars].
  - cbn. lia.
  - destruct (continuation c) eqn:Hc.
    + specialize (IH n). destruct (split_chars n s) as [taken left].
      cbn [fst chars] in *. rewrite Hc. exact IH.
    + destruct n as [|k]; [cbn; lia|].
      specialize (IH k). destruct (split_chars k s) as [taken left].
      cbn [fst chars] in *. rewrite Hc. lia.
Qed.

(** What a [varchar(n)] column stores has at most [n] characters. *)
Lemma varchar_fits : forall n column s stored,
  varchar n column s = inr stored -> chars stored <= n.
Proof.
  intros n column s stored H. unfold varchar in H.
  pose proof (split_chars_fits s n) as Hf.
  destruct (split_chars n s) as [taken left]. cbn [fst] in Hf.
  destruct (spaces left); [|discriminate]. inversion H; subst. exact Hf.
Qed.

(** ** Members of the body *)

Lemma falsy_some : forall s, s <> EmptyString -> falsy (Some s) = false.
Proof. intros [|c s] H; [congruence|reflexivity]. Qed.

Lemma falsy_field_str : forall s, s <> EmptyString -> falsy_field (Str s) = false.
Proof. intros [|c s] H; [congruence|reflexivity]. Qed.

(** A member that passes [!v] is sent to the store as a text. *)
Lemma truthy_param : forall v,
  falsy_field v = false -> exists m, param v = Some m.
Proof.
  intros [| |[|]|text|s|text sent] H; cbn in *; try discriminate; eauto.
Qed.

(** [update(v)] takes a member that is a string, and no other. *)
Lemma as_string_str : forall v p, as_string v = Some p <-> v = Str p.
Proof.
  intros v p. split.
  - destruct v; cbn; intros H; try discriminate. inversion H. reflexivity.
  - intros ->. reflexivity.
Qed.

Lemma param_str : forall v p, as_string v = Some p -> param v = Some p.
Proof. intros v p H. apply as_string_str in H. subst. reflexivity. Qed.

Lemma matching_null : forall d, matching d None = [].
Proof.
  intros d. unfold matching. induction (users d) as [|u l IH]; [reflexivity|exact IH].
Qed.

Lemma matching_unused : forall d m,
  existsb (fun u => String.eqb (u_email u) m) (users d) = false ->
  matching d (Some m) = [].
Proof.
  intros d m. unfold matching. induction (users d) as [|u l IH]; cbn; intros H.
  - reflexivity.
  - apply orb_false_iff in H. destruct H as [Hu Hl].
    rewrite Hu. exact (IH Hl).
Qed.

Lemma matching_snoc : forall d u m,
  matching d (Some m) = [] -> u_email u = m ->
  matching (Db (users d ++ [u])%list (sessions d)) (Some m) = [u].
Proof.
  intros d u m Hm Hu. unfold matching in *. cbn [users].
  rewrite filter_app, Hm. cbn [filter eq_text Datatypes.app].
  rewrite Hu, String.eqb_refl. reflexivity.
Qed.

(** ** Runs of the handlers *)

(** From here on the primitives are used through their equations only. *)
Opaque Crypto.createHmac_sha256_hex Crypto.toString_hex Uuid.parse Uuid.v4.

Ltac exec :=
  unfold run, signup, login, session_middleware, routes,
    select_user_email, select_user_credential, insert_user, insert_session,
    select_session_user, returned_id, createHmac_sha256, randomBytes_hex,
    find_users, add_user, add_session, text_param, assign,
    await, enter, ask, bind, ret, throw in *;
  cbn [st_db st_log st_visited length Datatypes.app] in *.

Ltac reduce :=
  cbn [st_db st_log st_visited length Datatypes.app hd_error map fst snd
       name email password status sent get template param as_string falsy_field
       orb andb negb] in *.

Lemma signup_created : forall b e d r st,
  run (signup b) e d = (inr r, st) -> status r = 201 ->
  exists n m p stored_name stored_email,
    (param (name b) = Some n /\ param (email b) = Some m
     /\ as_string (password b) = Some p)
    /\ (text_in n = true /\ text_in m = true
        /\ varchar 255 "name" n = inr stored_name
        /\ varchar 255 "email" m = inr stored_email)
    /\ (matching d (Some m) = []
        /\ existsb (fun u => String.eqb (u_email u) stored_email) (users d) = false)
    /\ st_db st =
       Db (users d ++
           [User (new_id e) stored_name stored_email
              (Crypto.createHmac_sha256_hex (salt_of e) p) (Some (salt_of e))])%list
          (sessions d)
    /\ r = json 201 [("userId", new_id e); ("message", "User created successfully")].
Proof.
  intros b e d r st Hrun Hst. exec. reduce.
  destruct (outage e 0); reduce; [discriminate|].
  destruct (param (email b)) as [m|] eqn:Hm; reduce.
  2:{ rewrite matching_null in Hrun. reduce.
      destruct (as_string (password b)); reduce; [|discriminate].
      destruct (outage e 1); reduce; [discriminate|].
      destruct (param (name b)) as [n|]; reduce;
        [destruct (text_in n); reduce; [|discriminate];
         destruct (varchar 255 "name" n); discriminate
        |discriminate]. }
  destruct (text_in m) eqn:Htm; reduce; [|discriminate].
  destruct (matching d (Some m)) eqn:Hmm; reduce.
  2:{ inversion Hrun; subst; discriminate. }
  destruct (as_string (password b)) as [p|] eqn:Hp; reduce; [|discriminate].
  destruct (outage e 1); reduce; [discriminate|].
  destruct (param (name b)) as [n|] eqn:Hn; reduce.
  2:{ destruct (varchar 255 "email" m); discriminate. }
  destruct (text_in n) eqn:Htn; reduce; [|discriminate].
  destruct (varchar 255 "name" n) as [err|n'] eqn:Hvn; reduce; [discriminate|].
  destruct (varchar 255 "email" m) as [err|m'] eqn:Hvm; reduce; [discriminate|].
  destruct (existsb _ (users d)); reduce; [discriminate|].
  destruct (existsb _ (users d)) eqn:Hu; reduce; [discriminate|].
  rewrite String.eqb_refl in Hrun.
  inversion Hrun; subst. exists n, m, p, n', m'. repeat split; assumption.
Qed.

Lemma login_unknown_email : forall b e d m,
  falsy_field (email b) = false -> falsy_field (password b) = false ->
  outage e 0 = false ->
  param (email b) = Some m -> text_in m = true ->
  matching d (Some m) = [] ->
  run (login b) e d
  = (inr (json 400 credentials_error),
     State d [SelectUserCredential (Some m)] [UserLogin]).
Proof.
  intros b e d m He Hp Hup Hm Ht Hnone. exec.
  rewrite He, Hp. reduce. rewrite Hup, Hm, Ht, Hnone. reflexivity.
Qed.

Lemma login_wrong_password : forall b e d m u rest s p,
  falsy_field (email b) = false -> falsy_field (password b) = false ->
  outage e 0 = false ->
  param (email b) = Some m -> text_in m = true ->
  matching d (Some m) = u :: rest ->
  u_salt u = Some s -> password b = Str p ->
  Crypto.createHmac_sha256_hex s p <> u_password u ->
  run (login b) e d
  = (inr (json 400 credentials_error),
     State d [SelectUserCredential (Some m)] [UserLogin]).
Proof.
  intros b e d m u rest s p He Hp Hup Hm Ht Hsome Hs Hpw Hne. exec.
  rewrite He, Hp. reduce. rewrite Hup, Hm, Ht, Hsome. reduce.
  rewrite Hs, Hpw. cbn [as_string]. reduce.
  apply String.eqb_neq in Hne. rewrite Hne. reflexivity.
Qed.

Lemma login_correct_password : forall b e d m u rest s p uid,
  falsy_field (email b) = false -> falsy_field (password b) = false ->
  (forall i, outage e i = false) ->
  param (email b) = Some m -> text_in m = true ->
  matching d (Some m) = u :: rest ->
  u_salt u = Some s -> password b = Str p ->
  Crypto.createHmac_sha256_hex s p = u_password u ->
  Uuid.parse (u_id u) = Some uid ->
  existsb (fun u' => String.eqb (u_id u') uid) (users d) = true ->
  existsb (fun x => String.eqb (s_id x) (new_id e)) (sessions d) = false ->
  run (login b) e d
  = (inr (json 200 [("message", "Login successfully"); ("sessionId", new_id e)]),
     State (Db (users d) (sessions d ++ [Session (new_id e) (Some uid) (clock e)])%list)
           [SelectUserCredential (Some m); InsertSession (u_id u)]
           [UserLogin]).
Proof.
  intros b e d m u rest s p uid He Hp Hup Hm Ht Hsome Hs Hpw Heq Hid Hfk Hpk. exec.
  rewrite He, Hp. reduce. rewrite Hup, Hm, Ht, Hsome. reduce.
  rewrite Hs, Hpw. cbn [as_string]. reduce.
  apply String.eqb_eq in Heq. rewrite Heq. reduce.
  rewrite Hup, Hid, Hpk, Hfk. reduce.
  rewrite String.eqb_refl. reflexivity.
Qed.

(** What is stored of a non-empty value is not empty. *)
Lemma varchar_nonempty : forall k column s stored,
  varchar (S k) column s = inr stored -> s <> EmptyString -> stored <> EmptyString.
Proof.
  intros k column [|c s] stored H Hne; [congruence|].
  unfold varchar in H. cbn [split_chars] in H.
  destruct (continuation c).
  - destruct (split_chars (S k) s) as [taken left].
    destruct (spaces left); [|discriminate]. inversion H. discriminate.
  - destruct (split_chars k s) as [taken left].
    destruct (spaces left); [|discriminate]. inversion H. discriminate.
Qed.

(** ** C1: register, then log in *)

(** C1 (amended).  For every credential created by signup with a non-empty
    email [m] and a password that is a non-empty string [p]: the record
    keeps the email as the store took it (what [varchar(255)] stores of
    [m]: [m] itself when it has at most 255 characters), the salt drawn and
    the HMAC-SHA256 of [p] under it; a login with that credential's email
    and [p], with the store in reach and a uuid not yet in use drawn for
    the session, recomputes the hash, is answered 200 and returns the id of
    the one session it adds, bound to the credential; a login with that
    email and a non-empty password whose hash under the stored salt differs
    from the stored hash is answered 400 with the generic credentials error
    and changes nothing. *)
Theorem login_after_signup :
  forall b1 e1 d r1 st1 m p,
    run (signup b1) e1 d = (inr r1, st1) -> status r1 = 201 ->
    param (email b1) = Some m -> password b1 = Str p ->
    m <> EmptyString -> p <> EmptyString ->
    forall e2 n2,
      (forall i, outage e2 i = false) ->
      existsb (fun x => String.eqb (s_id x) (new_id e2)) (sessions (st_db st1)) = false ->
      exists u,
        In u (users (st_db st1))
        /\ varchar 255 "email" m = inr (u_email u)
        /\ (chars m <= 255 -> u_email u = m)
        /\ u_salt u = Some (salt_of e1)
        /\ u_password u = Crypto.createHmac_sha256_hex (salt_of e1) p
        /\ run (login (Body n2 (Str (u_email u)) (Str p))) e2 (st_db st1)
           = (inr (json 200 [("message", "Login successfully");
                             ("sessionId", new_id e2)]),
              State (Db (users (st_db st1))
                        (sessions (st_db st1)
                         ++ [Session (new_id e2) (Some (u_id u)) (clock e2)])%list)
                    [SelectUserCredential (Some (u_email u)); InsertSession (u_id u)]
                    [UserLogin])
        /\ forall p',
             p' <> EmptyString ->
             Crypto.createHmac_sha256_hex (salt_of e1) p' <> u_password u ->
             run (login (Body n2 (Str (u_email u)) (Str p'))) e2 (st_db st1)
             = (inr (json 400 credentials_error),
                State (st_db st1) [SelectUserCredential (Some (u_email u))] [UserLogin]).
Proof.
  intros b1 e1 d r1 st1 m p Hrun Hst Hm Hp Hmne Hpne e2 n2 Hup Hfresh.
  destruct (signup_created _ _ _ _ _ Hrun Hst)
    as (n & m0 & p0 & n' & m' & (_ & Hm0 & Hp0) & (_ & Htm & _ & Hvm) & (_ & Hfree) & Hdb & _).
  rewrite Hm in Hm0. injection Hm0 as <-.
  rewrite Hp in Hp0. cbn [as_string] in Hp0. injection Hp0 as <-.
  set (u := User (new_id e1) n' m'
              (Crypto.createHmac_sha256_hex (salt_of e1) p) (Some (salt_of e1))) in *.
  assert (Hmatch : matching (st_db st1) (Some m') = [u])
    by (rewrite Hdb; apply matching_snoc; [apply matching_unused; assumption|reflexivity]).
  assert (Hne' : m' <> EmptyString) by (eapply varchar_nonempty; eassumption).
  assert (Hem : falsy_field (Str m') = false) by (apply falsy_field_str; assumption).
  assert (Htm' : text_in m' = true) by (eapply varchar_text; eassumption).
  exists u.
  split; [rewrite Hdb; apply in_or_app; right; left; reflexivity|].
  split; [exact Hvm|].
  split; [intros Hle; cbn [u_email u]; rewrite (varchar_short 255 "email" m Hle) in Hvm;
          injection Hvm as <-; reflexivity|].
  do 2 (split; [reflexivity|]).
  split.
  - apply (login_correct_password (Body n2 (Str m') (Str p)) e2 (st_db st1) m'
             u [] (salt_of e1) p (u_id u)).
    + exact Hem.
    + apply falsy_field_str; assumption.
    + exact Hup.
    + reflexivity.
    + exact Htm'.
    + exact Hmatch.
    + reflexivity.
    + reflexivity.
    + reflexivity.
    + apply parse_v4.
    + rewrite Hdb. cbn [users]. rewrite existsb_app. cbn [existsb].
      rewrite String.eqb_refl, orb_true_r. reflexivity.
    + exact Hfresh.
  - intros q Hq Hne.
    apply (login_wrong_password (Body n2 (Str m') (Str q)) e2 (st_db st1) m'
             u [] (salt_of e1) q).
    + exact Hem.
    + apply falsy_field_str; assumption.
    + apply Hup.
    + reflexivity.
    + exact Htm'.
    + exact Hmatch.
    + reflexivity.
    + reflexivity.
    + exact Hne.
Qed.

Lemma login_after_signup_witness :
  reply (run (login john) env1 (store (run (signup john) env0 no_db)))
  = inr (json 200 [("message", "Login successfully"); ("sessionId", new_id env1)]).
Proof.
  destruct (login_after_signup john env0 no_db
              (json 201 [("userId", new_id env0);
                         ("message", "User created successfully")])
              (snd (run (signup john) env0 no_db))
              "john@example.com" "mySecurePassword123")
    with (e2 := env1) (n2 := name john)
    as (u & _ & _ & Hu & _ & _ & H & _).
  - vm_compute. reflexivity.
  - reflexivity.
  - reflexivity.
  - reflexivity.
  - discriminate.
  - discriminate.
  - intros i. reflexivity.
  - vm_compute. reflexivity.
  - rewrite Hu in H by (vm_compute; lia). exact (f_equal fst H).
Defined.

(** C1 as stated fails on an empty password: signup stores the credential
    and the login with the same password is refused. *)
Lemma login_after_signup_empty_password :
  let b := Body (Str "John Doe") (Str "john@example.com") (Str EmptyString) in
  reply (run (signup b) env0 no_db)
  = inr (json 201 [("userId", new_id env0); ("message", "User created successfully")])
  /\ length (users (store (run (signup b) env0 no_db))) = 1
  /\ reply (run (login b) env1 (store (run (signup b) env0 no_db)))
     = inr (json 400 required_error).
Proof. vm_compute. repeat split; reflexivity. Qed.

(** An email of more than 255 characters whose excess is spaces: signup is
    answered 201 and the store keeps the first 255 characters; the login
    with the email as sent finds no credential, the login with the email as
    stored is answered 200; a second signup with the email as sent passes
    the lookup and is refused by the unique index, with no response. *)
Example signup_cuts_trailing_spaces :
  let b := Body (Str "John Doe") (Str long_email) (Str "mySecurePassword123") in
  let d1 := store (run (signup b) env0 no_db) in
  chars long_email = 256
  /\ reply (run (signup b) env0 no_db)
     = inr (json 201 [("userId", new_id env0); ("message", "User created successfully")])
  /\ map u_email (users d1) = [fst (split_chars 255 long_email)]
  /\ reply (run (login b) env1 d1) = inr (json 400 credentials_error)
  /\ reply (run (login (Body Absent (Str (fst (split_chars 255 long_email)))
                          (Str "mySecurePassword123"))) env1 d1)
     = inr (json 200 [("message", "Login successfully"); ("sessionId", new_id env1)])
  /\ reply (run (signup b) env1 d1)
     = inl (StoreError (UniqueViolation "users_email_unique"))
  /\ store (run (signup b) env1 d1) = d1.
Proof. vm_compute. repeat split; reflexivity. Qed.

(** ** C2: the two credential failures of login *)

(** C2 (evaluation at the failing input).  Two logins carry the password
    123, a number, which is not John's password.  The one with an email no
    credential has is answered 400 with the generic credentials error; the
    one with John's email finds his credential and ends in the rejection of
    [update(123)], with no response and the store unchanged: the caller
    tells a known email from an unknown one. *)
Theorem login_failure_tells_known_email :
  let unknown := Body Absent (Str "nobody@example.com") (Number "123") in
  let known := Body Absent (Str "john@example.com") (Number "123") in
  matching store0 (param (email unknown)) = []
  /\ map u_email (matching store0 (param (email known))) = ["john@example.com"]
  /\ run (login unknown) env1 store0
     = (inr (json 400 credentials_error),
        State store0 [SelectUserCredential (Some "nobody@example.com")] [UserLogin])
  /\ run (login known) env1 store0
     = (inl (TypeError "The data argument must be of type string"),
        State store0 [SelectUserCredential (Some "john@example.com")] [UserLogin]).
Proof. vm_compute. repeat split; reflexivity. Qed.

(** When the password of the second is a string, the two credential
    failures answer alike.  Take two login requests that both carry an
    email and a password, the emails sent to the store as texts without
    the octet 0.  If the email of the first matches no stored credential,
    and the email of the second matches one that has a salt and whose
    stored hash differs from the hash of the supplied password under it,
    then both are answered with the same status, 400, and the same error
    payload. *)
Lemma login_failures_alike :
  forall d e1 e2 b1 b2 m1 m2 u rest s p,
    falsy_field (email b1) = false -> falsy_field (password b1) = false ->
    falsy_field (email b2) = false -> falsy_field (password b2) = false ->
    outage e1 0 = false -> outage e2 0 = false ->
    param (email b1) = Some m1 -> text_in m1 = true ->
    param (email b2) = Some m2 -> text_in m2 = true ->
    matching d (Some m1) = [] ->
    matching d (Some m2) = u :: rest ->
    u_salt u = Some s -> password b2 = Str p ->
    Crypto.createHmac_sha256_hex s p <> u_password u ->
    exists r,
      reply (run (login b1) e1 d) = inr r
      /\ reply (run (login b2) e2 d) = inr r
      /\ status r = 400
      /\ sent r = Json credentials_error.
Proof.
  intros d e1 e2 b1 b2 m1 m2 u rest s p He1 Hp1 He2 Hp2 Hup1 Hup2
    Hm1 Ht1 Hm2 Ht2 Hnone Hsome Hs Hp Hne.
  exists (json 400 credentials_error). unfold reply.
  rewrite (login_unknown_email b1 e1 d m1 He1 Hp1 Hup1 Hm1 Ht1 Hnone).
  rewrite (login_wrong_password b2 e2 d m2 u rest s p He2 Hp2 Hup2 Hm2 Ht2 Hsome Hs Hp Hne).
  repeat split.
Qed.

(** ** C3: signup does not validate its fields *)

(** C3 (evaluation at the failing inputs).  A signup whose name, email and
    password are all empty strings is answered 201 and adds a credential
    record; a signup without a password, or without a name, is not answered
    400 but ends in a rejection, with no record added. *)
Theorem signup_accepts_empty_fields :
  let blank := Body (Str EmptyString) (Str EmptyString) (Str EmptyString) in
  let no_password := Body (Str "John Doe") (Str "john@example.com") Absent in
  let no_name := Body Absent (Str "john@example.com") (Str "mySecurePassword123") in
  (reply (run (signup blank) env0 no_db)
   = inr (json 201 [("userId", new_id env0); ("message", "User created successfully")])
   /\ users (store (run (signup blank) env0 no_db))
      = [User (new_id env0) EmptyString EmptyString
           (Crypto.createHmac_sha256_hex (salt_of env0) EmptyString)
           (Some (salt_of env0))])
  /\ (reply (run (signup no_password) env0 no_db)
      = inl (TypeError "The data argument must be of type string")
      /\ store (run (signup no_password) env0 no_db) = no_db)
  /\ (reply (run (signup no_name) env0 no_db)
      = inl (StoreError (NotNullViolation "name"))
      /\ store (run (signup no_name) env0 no_db) = no_db).
Proof. vm_compute. repeat split; reflexivity. Qed.

(** ** C4: a second signup with the same email *)





(** ** What every run of signup and login looks like *)

Ltac innermost x :=
  match x with
  | context [match ?y with _ => _ end] => innermost y
  | _ => destruct x eqn:?
  end.

Ltac cases :=
  repeat (reduce;
          match goal with
          | |- context [match ?x with _ => _ end] => innermost x
          end);
  reduce.

Lemma signup_shape : forall b e d,
  let x := run (signup b) e d in
  st_visited (snd x) = [UserSignup]
  /\ Forall user_query (st_log (snd x))
  /\ (forall r, fst x = inr r -> status r = 201 \/ status r = 400)
  /\ (forall err, fst x = inl err -> st_db (snd x) = d).
Proof.
  intros b e d x; subst x; exec; cases;
    (split; [reflexivity|]);
    (split; [repeat constructor|]);
    (split; [intros r Hr; inversion Hr; subst; cbn; auto
            |intros err Herr; try discriminate; reflexivity]).
Qed.

Lemma login_shape : forall b e d,
  let x := run (login b) e d in
  st_visited (snd x) = [UserLogin]
  /\ Forall user_query (st_log (snd x))
  /\ (forall r, fst x = inr r -> status r = 200 \/ status r = 400)
  /\ (forall err, fst x = inl err -> st_db (snd x) = d).
Proof.
  intros b e d x; subst x; exec; cases;
    (split; [reflexivity|]);
    (split; [repeat constructor|]);
    (split; [intros r Hr; inversion Hr; subst; cbn; auto
            |intros err Herr; try discriminate; reflexivity]).
Qed.

(** ** Runs of the session middleware *)

Lemma middleware_no_token : forall tok e d,
  falsy tok = true ->
  run (session_middleware tok) e d
  = (inr (Send (json 401 [("error", "No session ID provided")])),
     State d [] [SessionMiddleware]).
Proof. intros tok e d H. exec. rewrite H. reflexivity. Qed.

Lemma middleware_unknown_session : forall text id e d,
  text <> EmptyString ->
  outage e 0 = false ->
  Uuid.parse text = Some id ->
  joined d id = [] ->
  run (session_middleware (Some text)) e d
  = (inr (Send (json 401 [("error", "Invalid session ID")])),
     State d [SelectSessionUser (Some text)] [SessionMiddleware]).
Proof.
  intros text id e d Hne Hup Hid Hj. exec.
  rewrite (falsy_some _ Hne). reduce. rewrite Hup, Hid, Hj. reflexivity.
Qed.

Lemma middleware_malformed_token : forall text e d,
  text <> EmptyString ->
  outage e 0 = false ->
  Uuid.parse text = None ->
  run (session_middleware (Some text)) e d
  = (inl (StoreError (InvalidUuidSyntax text)),
     State d [SelectSessionUser (Some text)] [SessionMiddleware]).
Proof.
  intros text e d Hne Hup Hid. exec.
  rewrite (falsy_some _ Hne). reduce. rewrite Hup, Hid. reflexivity.
Qed.

Lemma middleware_next : forall tok e d user st,
  run (session_middleware tok) e d = (inr (Next user), st) ->
  exists text id row,
    tok = Some text /\ text <> EmptyString
    /\ Uuid.parse text = Some id
    /\ hd_error (joined d id) = Some row
    /\ user = Some row
    /\ st = State d [SelectSessionUser tok] [SessionMiddleware].
Proof.
  intros tok e d user st Hrun. exec.
  destruct (falsy tok) eqn:Hf; reduce; [discriminate|].
  destruct (outage e 0); reduce; [discriminate|].
  destruct tok as [text|]; [|discriminate].
  destruct (Uuid.parse text) as [id|] eqn:Hid; reduce; [|discriminate].
  destruct (hd_error (joined d id)) as [row|] eqn:Hrow; reduce; [|discriminate].
  inversion Hrun; subst.
  exists text, id, row. repeat split; try assumption.
  intros ->. discriminate.
Qed.

Lemma joined_in : forall d id row,
  In row (joined d id) ->
  exists s u,
    In s (sessions d) /\ s_id s = id
    /\ In u (users d) /\ s_userId s = Some (u_id u)
    /\ row = [("id", s_id s); ("userId", u_id u);
              ("name", u_name u); ("email", u_email u)].
Proof.
  intros d id row Hin. unfold joined in Hin.
  apply in_flat_map in Hin. destruct Hin as (s & Hs & Hin).
  destruct (String.eqb (s_id s) id) eqn:Hid; [|destruct Hin].
  apply in_flat_map in Hin. destruct Hin as (u & Hu & Hin).
  destruct (s_userId s) as [uid|] eqn:Huid; cbn [eq_text] in Hin; [|destruct Hin].
  destruct (String.eqb (u_id u) uid) eqn:Heq; [|destruct Hin].
  destruct Hin as [<-|[]].
  apply String.eqb_eq in Hid, Heq. subst uid.
  exists s, u. repeat split; assumption.
Qed.

Lemma middleware_resolves : forall tok e d user st,
  run (session_middleware tok) e d = (inr (Next user), st) ->
  exists text id s u,
    tok = Some text /\ Uuid.parse text = Some id
    /\ In s (sessions d) /\ s_id s = id
    /\ In u (users d) /\ s_userId s = Some (u_id u)
    /\ user = Some [("id", s_id s); ("userId", u_id u);
                    ("name", u_name u); ("email", u_email u)].
Proof.
  intros tok e d user st Hrun.
  destruct (middleware_next _ _ _ _ _ Hrun)
    as (text & id & row & Htok & _ & Hid & Hrow & Huser & _).
  destruct (joined_in d id row) as (s & u & Hs & Hsid & Hu & Huid & Hr).
  - destruct (joined d id); [discriminate|].
    injection Hrow as ->. left. reflexivity.
  - exists text, id, s, u. subst row. repeat split; assumption.
Qed.

(** ** Runs of the application *)

Lemma app_other_route : forall req e d,
  user_router req = None ->
  run (app req) e d
  = match run (session_middleware (session_id req)) e d with
    | (inl err, st) => (inl err, st)
    | (inr (Send r), st) => (inr r, st)
    | (inr (Next _), st) => routes req e st
    end.
Proof.
  intros req e d H. unfold app, run, bind. rewrite H.
  destruct (session_middleware (session_id req) e (State d [] []))
    as [[err|[r|user]] st]; reflexivity.
Qed.

(** ** C5: requests the session middleware refuses *)

(** C5 (amended).  For every request that passes through the session
    middleware: when the session-id header is missing or empty the request
    is answered 401 "No session ID provided" without any query; when it is
    the text of a uuid that matches no session joined with its credential,
    and the store is in reach, the request is answered 401 "Invalid session
    ID".  In both cases the store is unchanged and no layer after the
    middleware is entered. *)
Theorem session_validation_errors :
  forall req e d,
    user_router req = None ->
    (falsy (session_id req) = true ->
     run (app req) e d
     = (inr (json 401 [("error", "No session ID provided")]),
        State d [] [SessionMiddleware]))
    /\ (forall text id,
          session_id req = Some text -> text <> EmptyString ->
          Uuid.parse text = Some id ->
          outage e 0 = false ->
          joined d id = [] ->
          run (app req) e d
          = (inr (json 401 [("error", "Invalid session ID")]),
             State d [SelectSessionUser (Some text)] [SessionMiddleware])).
Proof.
  intros req e d Hroute. split.
  - intros Hf. rewrite (app_other_route _ _ _ Hroute).
    rewrite (middleware_no_token _ _ _ Hf). reflexivity.
  - intros text id Htok Hne Hid Hup Hj.
    rewrite (app_other_route _ _ _ Hroute), Htok.
    rewrite (middleware_unknown_session text id e d Hne Hup Hid Hj). reflexivity.
Qed.

Lemma session_validation_errors_witness :
  run (app (greeting_request None)) env0 store1
  = (inr (json 401 [("error", "No session ID provided")]),
     State store1 [] [SessionMiddleware])
  /\ run (app (greeting_request (Some unknown_id))) env0 store1
     = (inr (json 401 [("error", "Invalid session ID")]),
        State store1 [SelectSessionUser (Some unknown_id)] [SessionMiddleware]).
Proof.
  split.
  - apply (session_validation_errors (greeting_request None) env0 store1);
      reflexivity.
  - apply (session_validation_errors (greeting_request (Some unknown_id))
             env0 store1 eq_refl) with (id := unknown_id).
    + reflexivity.
    + discriminate.
    + vm_compute. reflexivity.
    + reflexivity.
    + vm_compute. reflexivity.
Defined.

(** C5 as stated fails on a token that is not the text of a uuid: it
    matches no session, the store refuses the query, and the request ends in
    a rejection instead of a 401 response. *)
Lemma session_validation_malformed_token :
  existsb (fun s => String.eqb (s_id s) "not-a-real-id") (sessions store1) = false
  /\ reply (run (app (greeting_request (Some "not-a-real-id"))) env0 store1)
     = inl (StoreError (InvalidUuidSyntax "not-a-real-id"))
  /\ st_visited (snd (run (app (greeting_request (Some "not-a-real-id"))) env0 store1))
     = [SessionMiddleware].
Proof. vm_compute. repeat split; reflexivity. Qed.

(** ** C6: a valid session has a credential *)

(** C6.  Whenever the session middleware passes a request on, the token is
    the text of the id of a stored session whose userId is the id of a
    stored credential, and the identity passed on is read from that session
    and that credential.  So when no stored session with the id of the token
    has a stored credential (in particular when no stored session has that
    id), the request is not passed on. *)
Theorem valid_session_has_credential :
  forall tok e d,
    (forall user st,
       run (session_middleware tok) e d = (inr (Next user), st) ->
       exists text id s u,
         tok = Some text /\ Uuid.parse text = Some id
         /\ In s (sessions d) /\ s_id s = id
         /\ In u (users d) /\ s_userId s = Some (u_id u)
         /\ user = Some [("id", s_id s); ("userId", u_id u);
                         ("name", u_name u); ("email", u_email u)])
    /\ ((forall text id s u,
           tok = Some text -> Uuid.parse text = Some id ->
           In s (sessions d) -> In u (users d) ->
           s_id s = id -> s_userId s <> Some (u_id u)) ->
        forall user st,
          run (session_middleware tok) e d <> (inr (Next user), st)).
Proof.
  intros tok e d. split; [apply middleware_resolves|].
  intros Hnone user st Hrun.
  destruct (middleware_resolves _ _ _ _ _ Hrun)
    as (text & id & s & u & Htok & Hid & Hs & Hsid & Hu & Huid & _).
  exact (Hnone text id s u Htok Hid Hs Hu Hsid Huid).
Qed.

Lemma valid_session_has_credential_witness :
  (exists text id s u,
     Some (new_id env1) = Some text /\ Uuid.parse text = Some id
     /\ In s (sessions store1) /\ s_id s = id
     /\ In u (users store1) /\ s_userId s = Some (u_id u)
     /\ Some [("id", new_id env1); ("userId", new_id env0);
              ("name", "John Doe"); ("email", "john@example.com")]
        = Some [("id", s_id s); ("userId", u_id u);
                ("name", u_name u); ("email", u_email u)])
  /\ forall user st,
       run (session_middleware (Some unknown_id)) env0 store1 <> (inr (Next user), st).
Proof.
  split.
  - apply (proj1 (valid_session_has_credential (Some (new_id env1)) env0 store1))
      with (st := State store1 [SelectSessionUser (Some (new_id env1))]
                        [SessionMiddleware]).
    vm_compute. reflexivity.
  - apply (proj2 (valid_session_has_credential (Some unknown_id) env0 store1)).
    intros text id s u Htok Hid Hs Hu Hsid.
    injection Htok as <-.
    vm_compute in Hid. injection Hid as <-.
    vm_compute in Hs. destruct Hs as [<-|[]].
    vm_compute in Hsid. discriminate Hsid.
Defined.

(** ** C7: the identity attached to the request *)

(** What the session middleware leaves in [req.user]: the object has
    exactly the members id, userId, name and email; id is the id of the
    session the token names, userId the id of the credential that session
    belongs to, name and email are those of that credential; it has no
    member for the password hash or the salt. *)
Lemma attached_members :
  forall tok e d user st,
    run (session_middleware tok) e d = (inr (Next user), st) ->
    exists text s u row,
      tok = Some text /\ Uuid.parse text = Some (s_id s)
      /\ In s (sessions d) /\ In u (users d) /\ s_userId s = Some (u_id u)
      /\ user = Some row
      /\ keys row = ["id"; "userId"; "name"; "email"]
      /\ get row "id" = Some (s_id s)
      /\ get row "userId" = Some (u_id u)
      /\ get row "name" = Some (u_name u)
      /\ get row "email" = Some (u_email u)
      /\ get row "password" = None
      /\ get row "salt" = None.
Proof.
  intros tok e d user st Hrun.
  destruct (middleware_resolves _ _ _ _ _ Hrun)
    as (text & id & s & u & Htok & Hid & Hs & Hsid & Hu & Huid & Huser).
  subst id.
  eexists text, s, u, _. repeat split; try eassumption; reflexivity.
Qed.

(** C7 (evaluation at the failing input).  John has signed up and logged
    in; the request carries the session id his login returned.  The object
    the session middleware attaches has under id the id of the session, not
    the id of John's credential, which comes only under userId: the member
    id is not the credential's id that [README.md] shows for [req.user]. *)
Theorem attached_id_is_session_id :
  map u_id (users store1) = [new_id env0]
  /\ map s_id (sessions store1) = [new_id env1]
  /\ reply (run (session_middleware (Some (new_id env1))) env0 store1)
     = inr (Next (Some [("id", new_id env1); ("userId", new_id env0);
                        ("name", "John Doe"); ("email", "john@example.com")]))
  /\ new_id env1 <> new_id env0.
Proof. vm_compute. repeat split; try reflexivity. discriminate. Qed.

(** ** C8: when the store fails *)

Ltac handlers :=
  unfold run, signup, login, select_user_email, select_user_credential,
    insert_user, insert_session, returned_id, createHmac_sha256,
    randomBytes_hex, salt_of, await, enter, ask, bind, ret, throw in *;
  cbn [st_db st_log st_visited length Datatypes.app] in *.

(** C8 (amended).  For every registration or login request: when a store
    operation fails, the lookup or the insert, because the store is out of
    reach or because it refuses the query, the handler ends in a rejection
    that carries the store error, no response having been sent, and the
    store is as it was before the request, with no credential or session
    record added; and no response that signup or login sends has a
    500-class status. *)
Theorem store_failure_leaves_no_record :
  forall b e d,
    (forall err st,
       run (signup b) e d = (inl (StoreError err), st) -> st_db st = d)
    /\ (forall err st,
          run (login b) e d = (inl (StoreError err), st) -> st_db st = d)
    /\ (forall r st, run (signup b) e d = (inr r, st) -> status r < 500)
    /\ (forall r st, run (login b) e d = (inr r, st) -> status r < 500)
    /\ (forall err,
          fails (find_users (param (email b))) 0 e d err ->
          run (signup b) e d
          = (inl (StoreError err),
             State d [SelectUserEmail (param (email b))] [UserSignup]))
    /\ (forall p err,
          outage e 0 = false ->
          find_users (param (email b)) e d = inr ([], d) ->
          password b = Str p ->
          fails (add_user (param (name b)) (param (email b))
                   (Crypto.createHmac_sha256_hex (salt_of e) p) (salt_of e))
                1 e d err ->
          run (signup b) e d
          = (inl (StoreError err),
             State d [SelectUserEmail (param (email b));
                      InsertUser (param (name b)) (param (email b))
                        (Crypto.createHmac_sha256_hex (salt_of e) p) (salt_of e)]
                   [UserSignup]))
    /\ (forall err,
          falsy_field (email b) = false -> falsy_field (password b) = false ->
          fails (find_users (param (email b))) 0 e d err ->
          run (login b) e d
          = (inl (StoreError err),
             State d [SelectUserCredential (param (email b))] [UserLogin]))
    /\ (forall u rest s p err,
          falsy_field (email b) = false -> falsy_field (password b) = false ->
          outage e 0 = false ->
          find_users (param (email b)) e d = inr (u :: rest, d) ->
          u_salt u = Some s -> password b = Str p ->
          Crypto.createHmac_sha256_hex s p = u_password u ->
          fails (add_session (u_id u)) 1 e d err ->
          run (login b) e d
          = (inl (StoreError err),
             State d [SelectUserCredential (param (email b)); InsertSession (u_id u)]
                   [UserLogin])).
Proof.
  intros b e d.
  destruct (signup_shape b e d) as (_ & _ & Hs1 & Hs2).
  destruct (login_shape b e d) as (_ & _ & Hl1 & Hl2).
  split; [|split; [|split; [|split; [|split; [|split; [|split]]]]]].
  - intros err st H. rewrite H in Hs2. exact (Hs2 _ eq_refl).
  - intros err st H. rewrite H in Hl2. exact (Hl2 _ eq_refl).
  - intros r st H. rewrite H in Hs1. destruct (Hs1 _ eq_refl) as [-> | ->]; lia.
  - intros r st H. rewrite H in Hl1. destruct (Hl1 _ eq_refl) as [-> | ->]; lia.
  - clear. intros err [[Hdown ->]|[Hup Hq]]; handlers.
    + rewrite Hdown. reflexivity.
    + rewrite Hup, Hq. reflexivity.
  - clear. intros p err Hup Hfound Hp [[Hdown ->]|[Hup1 Hq]]; handlers;
      rewrite Hup, Hfound, Hp; reduce.
    + rewrite Hdown. reflexivity.
    + rewrite Hup1, Hq. reflexivity.
  - clear. intros err He Hp [[Hdown ->]|[Hup Hq]]; handlers;
      rewrite He, Hp; reduce.
    + rewrite Hdown. reflexivity.
    + rewrite Hup, Hq. reflexivity.
  - clear. intros u rest s p err He Hpw Hup Hfound Hs Hp Hhash [[Hdown ->]|[Hup1 Hq]];
      handlers; rewrite He, Hpw; reduce; rewrite Hup, Hfound; reduce;
      rewrite Hs, Hp; reduce; apply String.eqb_eq in Hhash; rewrite Hhash; reduce.
    + rewrite Hdown. reflexivity.
    + rewrite Hup1, Hq. reflexivity.
Qed.

Lemma store_failure_leaves_no_record_witness :
  run (signup john) env_cut no_db
  = (inl (StoreError ConnectionFailure),
     State no_db
       [SelectUserEmail (Some "john@example.com");
        InsertUser (Some "John Doe") (Some "john@example.com")
          (Crypto.createHmac_sha256_hex (salt_of env_cut) "mySecurePassword123")
          (salt_of env_cut)]
       [UserSignup])
  /\ run (signup jane) env0 store0
     = (inl (StoreError (UniqueViolation "users_pkey")),
        State store0
          [SelectUserEmail (Some "jane@example.com");
           InsertUser (Some "Jane Doe") (Some "jane@example.com")
             (Crypto.createHmac_sha256_hex (salt_of env0) "anotherPassword456")
             (salt_of env0)]
          [UserSignup])
  /\ run (login john) env_down store0
     = (inl (StoreError ConnectionFailure),
        State store0 [SelectUserCredential (Some "john@example.com")] [UserLogin]).
Proof.
  destruct (store_failure_leaves_no_record john env_cut no_db)
    as (_ & _ & _ & _ & _ & H6 & _).
  destruct (store_failure_leaves_no_record jane env0 store0)
    as (_ & _ & _ & _ & _ & K6 & _).
  destruct (store_failure_leaves_no_record john env_down store0)
    as (_ & _ & _ & _ & _ & _ & L7 & _).
  split; [|split].
  - apply (H6 "mySecurePassword123" ConnectionFailure).
    + reflexivity.
    + reflexivity.
    + reflexivity.
    + left. split; reflexivity.
  - apply (K6 "anotherPassword456" (UniqueViolation "users_pkey")).
    + reflexivity.
    + vm_compute. reflexivity.
    + reflexivity.
    + right. split; [reflexivity|vm_compute; reflexivity].
  - apply (L7 ConnectionFailure).
    + reflexivity.
    + reflexivity.
    + left. split; reflexivity.
Defined.

(** C8 as stated fails: with the store out of reach the signup ends in a
    rejection, and no response, of status 500 or any other, is sent. *)
Lemma store_failure_sends_no_response :
  reply (run (signup john) env_down no_db) = inl (StoreError ConnectionFailure)
  /\ reply (run (login john) env_down store1) = inl (StoreError ConnectionFailure)
  /\ ~ (exists r, reply (run (signup john) env_down no_db) = inr r
                  /\ 500 <= status r).
Proof.
  vm_compute. repeat split; try reflexivity.
  intros (r & H & _). discriminate H.
Qed.

(** ** C9: the routes of the /user router come before the session middleware *)

Lemma user_router_signup : forall req,
  verb req = POST -> map segment (path req) = ["user"; "signup"] ->
  user_router req = Some (signup (req_body req)).
Proof. intros req Hv Hp. unfold user_router. rewrite Hp, Hv. reflexivity. Qed.

Lemma user_router_login : forall req,
  verb req = POST -> map segment (path req) = ["user"; "login"] ->
  user_router req = Some (login (req_body req)).
Proof. intros req Hv Hp. unfold user_router. rewrite Hp, Hv. reflexivity. Qed.

Lemma user_query_not_session : forall log,
  Forall user_query log ->
  forall q, In q log -> forall tok, q <> SelectSessionUser tok.
Proof.
  intros log Hall q Hin tok ->.
  rewrite Forall_forall in Hall. exact (Hall _ Hin).
Qed.

(** C9.  Every request to POST /user/signup or POST /user/login is taken by
    the handler of the router: the run of the application is the run of
    that handler, whatever the session-id header; the session middleware is
    not entered, no session lookup is sent to the store, and no response it
    gets has status 401. *)
Theorem user_routes_bypass_session_validation :
  forall req e d,
    verb req = POST ->
    map segment (path req) = ["user"; "signup"]
    \/ map segment (path req) = ["user"; "login"] ->
    (run (app req) e d = run (signup (req_body req)) e d
     \/ run (app req) e d = run (login (req_body req)) e d)
    /\ ~ In SessionMiddleware (st_visited (snd (run (app req) e d)))
    /\ (forall q, In q (st_log (snd (run (app req) e d))) ->
        forall tok, q <> SelectSessionUser tok)
    /\ (forall r, reply (run (app req) e d) = inr r -> status r <> 401)
    /\ (forall h,
          run (app (Request (verb req) (path req) h (req_body req))) e d
          = run (app req) e d).
Proof.
  intros req e d Hv [Hp|Hp].
  - assert (Happ : forall h,
              run (app (Request (verb req) (path req) h (req_body req))) e d
              = run (signup (req_body req)) e d).
    { intros h. unfold run, app. rewrite user_router_signup by assumption.
      reflexivity. }
    assert (Hreq : run (app req) e d = run (signup (req_body req)) e d).
    { unfold run, app. rewrite user_router_signup by assumption. reflexivity. }
    destruct (signup_shape (req_body req) e d) as (Hvis & Hlog & Hst & _).
    rewrite Hreq. split; [left; reflexivity|].
    split; [rewrite Hvis; intros [H|[]]; discriminate H|].
    split; [exact (user_query_not_session _ Hlog)|].
    split; [|exact Happ].
    intros r Hr. destruct (Hst r Hr) as [-> | ->]; discriminate.
  - assert (Happ : forall h,
              run (app (Request (verb req) (path req) h (req_body req))) e d
              = run (login (req_body req)) e d).
    { intros h. unfold run, app. rewrite user_router_login by assumption.
      reflexivity. }
    assert (Hreq : run (app req) e d = run (login (req_body req)) e d).
    { unfold run, app. rewrite user_router_login by assumption. reflexivity. }
    destruct (login_shape (req_body req) e d) as (Hvis & Hlog & Hst & _).
    rewrite Hreq. split; [right; reflexivity|].
    split; [rewrite Hvis; intros [H|[]]; discriminate H|].
    split; [exact (user_query_not_session _ Hlog)|].
    split; [|exact Happ].
    intros r Hr. destruct (Hst r Hr) as [-> | ->]; discriminate.
Qed.

Lemma user_routes_bypass_session_validation_witness :
  let req := Request POST ["User"; "signup"] (Some "not-a-real-id") john in
  (run (app req) env0 no_db = run (signup john) env0 no_db
   \/ run (app req) env0 no_db = run (login john) env0 no_db)
  /\ ~ In SessionMiddleware (st_visited (snd (run (app req) env0 no_db)))
  /\ (forall q, In q (st_log (snd (run (app req) env0 no_db))) ->
      forall tok, q <> SelectSessionUser tok)
  /\ (forall r, reply (run (app req) env0 no_db) = inr r -> status r <> 401)
  /\ (forall h,
        run (app (Request POST ["User"; "signup"] h john)) env0 no_db
        = run (app req) env0 no_db).
Proof.
  apply (user_routes_bypass_session_validation
           (Request POST ["User"; "signup"] (Some "not-a-real-id") john)
           env0 no_db).
  - reflexivity.
  - left. reflexivity.
Defined.

(** ** C10: every other route is behind the session middleware *)

Lemma index_js_handed : forall i e d,
  refused i = None -> run (index_js i) e d = run (app (handed i)) e d.
Proof. intros i e d H. unfold run, index_js. rewrite H. reflexivity. Qed.

Lemma index_js_refused : forall i r e d,
  refused i = Some r -> run (index_js i) e d = (inr r, State d [] []).
Proof. intros i r e d H. unfold run, index_js. rewrite H. reflexivity. Qed.

(** C10 (amended).  For every request of the application that the /user
    router does not take, the root route GET / among them: a layer after
    the session middleware, the greeting or the final 404, is entered only
    if the JSON parser has handed the request on and the session-id header
    is the text of the id of a stored session that belongs to a stored
    credential.  A request the parser refuses is answered by the parser's
    error response, without any query.  When the parser hands the request
    on: if the header is missing or empty the response is 401, and if it is
    the text of a uuid that matches no session joined with its credential,
    and the store is in reach, the response is 401. *)
Theorem other_routes_session_gated :
  forall i e d,
    user_router (handed i) = None ->
    (forall out st,
       run (index_js i) e d = (out, st) ->
       In Greeting (st_visited st) \/ In NotFound (st_visited st) ->
       refused i = None
       /\ exists text id s u,
            session_id (handed i) = Some text /\ Uuid.parse text = Some id
            /\ In s (sessions d) /\ s_id s = id
            /\ In u (users d) /\ s_userId s = Some (u_id u))
    /\ (forall r,
          refused i = Some r ->
          run (index_js i) e d = (inr r, State d [] []))
    /\ (refused i = None ->
        falsy (session_id (handed i)) = true ->
        reply (run (index_js i) e d)
        = inr (json 401 [("error", "No session ID provided")]))
    /\ (refused i = None ->
        forall text id,
          session_id (handed i) = Some text -> text <> EmptyString ->
          Uuid.parse text = Some id ->
          outage e 0 = false ->
          joined d id = [] ->
          reply (run (index_js i) e d)
          = inr (json 401 [("error", "Invalid session ID")])).
Proof.
  intros i e d Hroute. split; [|split; [|split]].
  - intros out st Hrun Hvisited.
    destruct (refused i) as [r|] eqn:Hparser.
    { rewrite (index_js_refused i r e d Hparser) in Hrun.
      injection Hrun as _ <-. cbn in Hvisited. destruct Hvisited as [[]|[]]. }
    split; [reflexivity|].
    rewrite (index_js_handed i e d Hparser) in Hrun.
    rewrite (app_other_route _ _ _ Hroute) in Hrun.
    destruct (run (session_middleware (session_id (handed i))) e d)
      as [[err|[r|user]] st'] eqn:Hmw.
    + exfalso. injection Hrun as _ <-.
      revert Hmw Hvisited. clear. exec. cases; intros Hmw; inversion Hmw; subst;
        cbn; intros [[H|[]]|[H|[]]]; discriminate H.
    + exfalso. injection Hrun as _ <-.
      revert Hmw Hvisited. clear. exec. cases; intros Hmw; inversion Hmw; subst;
        cbn; intros [[H|[]]|[H|[]]]; discriminate H.
    + destruct (middleware_resolves _ _ _ _ _ Hmw)
        as (text & id & s & u & Htok & Hid & Hs & Hsid & Hu & Huid & _).
      exists text, id, s, u. repeat split; assumption.
  - intros r Hparser. exact (index_js_refused i r e d Hparser).
  - intros Hparser Hf. unfold reply.
    rewrite (index_js_handed i e d Hparser).
    rewrite (app_other_route _ _ _ Hroute), (middleware_no_token _ _ _ Hf).
    reflexivity.
  - intros Hparser text id Htok Hne Hid Hup Hj. unfold reply.
    rewrite (index_js_handed i e d Hparser).
    rewrite (app_other_route _ _ _ Hroute), Htok.
    rewrite (middleware_unknown_session text id e d Hne Hup Hid Hj).
    reflexivity.
Qed.

Lemma other_routes_session_gated_witness :
  (refused (Incoming (greeting_request (Some (new_id env1))) None) = None
   /\ exists text id s u,
        session_id (greeting_request (Some (new_id env1))) = Some text
        /\ Uuid.parse text = Some id
        /\ In s (sessions store1) /\ s_id s = id
        /\ In u (users store1) /\ s_userId s = Some (u_id u))
  /\ run (index_js (Incoming (greeting_request None) (Some payload_too_large)))
         env0 store1
     = (inr payload_too_large, State store1 [] [])
  /\ reply (run (index_js (Incoming (greeting_request None) None)) env0 store1)
     = inr (json 401 [("error", "No session ID provided")])
  /\ reply (run (index_js (Incoming (Request PATCH ["user"] (Some unknown_id) john)
                                    None)) env0 store1)
     = inr (json 401 [("error", "Invalid session ID")]).
Proof.
  split; [|split; [|split]].
  - apply (proj1 (other_routes_session_gated
                    (Incoming (greeting_request (Some (new_id env1))) None)
                    env0 store1 eq_refl)
                 (inr (Response 200 (Text "Hello, World!")))
                 (State store1 [SelectSessionUser (Some (new_id env1))]
                        [SessionMiddleware; Greeting])).
    + vm_compute. reflexivity.
    + left. right. left. reflexivity.
  - apply (other_routes_session_gated
             (Incoming (greeting_request None) (Some payload_too_large))
             env0 store1 eq_refl).
    reflexivity.
  - apply (other_routes_session_gated (Incoming (greeting_request None) None)
             env0 store1 eq_refl); reflexivity.
  - apply (proj2 (proj2 (proj2 (other_routes_session_gated
             (Incoming (Request PATCH ["user"] (Some unknown_id) john) None)
             env0 store1 eq_refl))) eq_refl)
      with (text := unknown_id) (id := unknown_id).
    + reflexivity.
    + discriminate.
    + vm_compute. reflexivity.
    + reflexivity.
    + vm_compute. reflexivity.
Defined.

(** C10 as stated fails on a header that is not the text of a uuid: it
    resolves to no session, yet the request to GET / gets no 401 response,
    it ends in the rejection of the store. *)
Lemma other_routes_malformed_token :
  let req := greeting_request (Some "not-a-real-id") in
  user_router req = None
  /\ Uuid.parse "not-a-real-id" = None
  /\ reply (run (index_js (Incoming req None)) env0 store1)
     = inl (StoreError (InvalidUuidSyntax "not-a-real-id"))
  /\ ~ (exists r, reply (run (index_js (Incoming req None)) env0 store1) = inr r
                  /\ status r = 401).
Proof.
  vm_compute. repeat split; try reflexivity.
  intros (r & H & _). discriminate H.
Qed.

(** * Further properties of the handlers *)

(** ** What a request does to the store *)

Lemma signup_effect : forall b e d, effect e d (store (run (signup b) e d)).
Proof.
  intros b e d; unfold store; exec; cases;
    try (apply Unchanged; reflexivity).
  eapply UserAdded; try reflexivity; assumption.
Qed.

Lemma login_effect : forall b e d, effect e d (store (run (login b) e d)).
Proof.
  intros b e d; unfold store; exec; cases;
    try (apply Unchanged; reflexivity).
  all: eapply SessionAdded; try reflexivity; try assumption.
  all: match goal with H : negb _ = false |- _ => apply negb_false_iff in H; exact H end.
Qed.

Lemma middleware_effect : forall tok e d,
  store (run (session_middleware tok) e d) = d.
Proof. intros tok e d; unfold store; exec; cases; reflexivity. Qed.

Lemma user_router_some : forall req h,
  user_router req = Some h ->
  h = signup (req_body req) \/ h = login (req_body req).
Proof.
  intros req h Hr. unfold user_router in Hr.
  destruct (map segment (path req)) as [|u [|r [|]]]; try discriminate.
  destruct (String.eqb u "user"); [|discriminate].
  destruct (verb req); try discriminate.
  destruct (String.eqb r "signup"); [injection Hr as <-; left; reflexivity|].
  destruct (String.eqb r "login"); [injection Hr as <-; right; reflexivity|].
  discriminate.
Qed.

Lemma app_router_route : forall req h e d,
  user_router req = Some h -> run (app req) e d = run h e d.
Proof. intros req h e d Hr. unfold run, app. rewrite Hr. reflexivity. Qed.

Lemma routes_run : forall req e st,
  exists r l,
    routes req e st
    = (inr r, State (st_db st) (st_log st) (st_visited st ++ [l])%list)
    /\ ((l = Greeting /\ r = Response 200 (Text "Hello, World!")
         /\ (verb req = GET \/ verb req = HEAD) /\ path req = [])
        \/ (l = NotFound /\ status r = 404)).
Proof.
  intros req e st. unfold routes, enter, bind, ret.
  destruct (verb req) eqn:Hv, (path req) eqn:Hp; eexists; eexists;
    (split; [reflexivity|]); auto 10.
Qed.

Lemma app_effect : forall req e d, effect e d (store (run (app req) e d)).
Proof.
  intros req e d. destruct (user_router req) as [h|] eqn:Hr.
  - rewrite (app_router_route _ _ _ _ Hr).
    destruct (user_router_some _ _ Hr) as [-> | ->];
      [apply signup_effect|apply login_effect].
  - apply Unchanged. rewrite (app_other_route _ _ _ Hr).
    pose proof (middleware_effect (session_id req) e d) as Hm.
    destruct (run (session_middleware (session_id req)) e d)
      as [[err|[r|user]] st]; try exact Hm.
    destruct (routes_run req e st) as (r & l & -> & _). exact Hm.
Qed.

Lemma not_existsb_in : forall A (f : A -> string) (x : string) (l : list A),
  existsb (fun a => String.eqb (f a) x) l = false -> ~ In x (map f l).
Proof.
  intros A f x l H Hin. apply in_map_iff in Hin. destruct Hin as (a & Ha & Hin).
  assert (Ht : existsb (fun a => String.eqb (f a) x) l = true).
  { apply existsb_exists. exists a. split; [exact Hin|].
    rewrite Ha. apply String.eqb_refl. }
  congruence.
Qed.

Lemma NoDup_snoc : forall A (l : list A) x,
  NoDup l -> ~ In x l -> NoDup (l ++ [x]).
Proof.
  intros A l x Hl Hx. apply NoDup_app; [exact Hl|repeat constructor; auto|].
  intros y Hy [<-|[]]. exact (Hx Hy).
Qed.

Lemma effect_well_formed : forall e d d',
  effect e d d' -> well_formed d -> well_formed d'.
Proof.
  intros e d d' Heff (Hid & Hem & Hsid & Hcan & Hfk).
  destruct Heff as [-> | n m h Hpk Huq -> | uid Hpk Hfk' ->].
  - repeat split; assumption.
  - unfold well_formed. cbn [users sessions].
    rewrite !map_app. cbn [map u_id u_email].
    split; [apply NoDup_snoc; [exact Hid|exact (not_existsb_in _ _ _ _ Hpk)]|].
    split; [apply NoDup_snoc; [exact Hem|exact (not_existsb_in _ _ _ _ Huq)]|].
    split; [exact Hsid|].
    split.
    + intros u Hu. apply in_app_or in Hu. destruct Hu as [Hu|[<-|[]]].
      * exact (Hcan u Hu).
      * apply parse_v4.
    + intros s Hs. destruct (Hfk s Hs) as (u & Hu & Hown).
      exists u. split; [apply in_or_app; left; exact Hu|exact Hown].
  - unfold well_formed. cbn [users sessions].
    rewrite !map_app. cbn [map s_id].
    split; [exact Hid|]. split; [exact Hem|].
    split; [apply NoDup_snoc; [exact Hsid|exact (not_existsb_in _ _ _ _ Hpk)]|].
    split; [exact Hcan|].
    intros s Hs. apply in_app_or in Hs. destruct Hs as [Hs|[<-|[]]].
    + exact (Hfk s Hs).
    + apply existsb_exists in Hfk'. destruct Hfk' as (u & Hu & Heq).
      apply String.eqb_eq in Heq. exists u. split; [exact Hu|].
      cbn [s_userId]. rewrite Heq. reflexivity.
Qed.

Lemma app_well_formed : forall req e d,
  well_formed d -> well_formed (store (run (app req) e d)).
Proof.
  intros req e d. apply effect_well_formed with (e := e). apply app_effect.
Qed.

Lemma effect_extends : forall e d d',
  effect e d d' ->
  extends (users d) (users d') /\ extends (sessions d) (sessions d')
  /\ length (users d') + length (sessions d')
     <= S (length (users d) + length (sessions d)).
Proof.
  intros e d d' [-> | n m h _ _ -> | uid _ _ ->]; cbn [users sessions].
  - split; [exists []; symmetry; apply app_nil_r|].
    split; [exists []; symmetry; apply app_nil_r|lia].
  - split; [eexists; reflexivity|].
    split; [exists []; symmetry; apply app_nil_r|].
    rewrite length_app. cbn. lia.
  - split; [exists []; symmetry; apply app_nil_r|].
    split; [eexists; reflexivity|].
    rewrite length_app. cbn. lia.
Qed.

Lemma extends_trans : forall A (l1 l2 l3 : list A),
  extends l1 l2 -> extends l2 l3 -> extends l1 l3.
Proof.
  intros A l1 l2 l3 [a ->] [b ->]. exists (a ++ b)%list.
  symmetry. apply app_assoc.
Qed.

Lemma serve_extends : forall rs d,
  extends (users d) (users (serve rs d))
  /\ extends (sessions d) (sessions (serve rs d))
  /\ length (users (serve rs d)) + length (sessions (serve rs d))
     <= length (users d) + length (sessions d) + length rs.
Proof.
  induction rs as [|[req e] rs IH]; intros d; cbn [serve length].
  - split; [exists []; symmetry; apply app_nil_r|].
    split; [exists []; symmetry; apply app_nil_r|lia].
  - destruct (effect_extends _ _ _ (app_effect req e d)) as (Hu & Hs & Hn).
    destruct (IH (store (run (app req) e d))) as (Hu' & Hs' & Hn').
    split; [exact (extends_trans _ _ _ _ Hu Hu')|].
    split; [exact (extends_trans _ _ _ _ Hs Hs')|lia].
Qed.

Lemma serve_well_formed : forall rs d, well_formed d -> well_formed (serve rs d).
Proof.
  induction rs as [|[req e] rs IH]; intros d Hd; cbn [serve]; [exact Hd|].
  apply IH. apply app_well_formed. exact Hd.
Qed.

(** ** X1: requests only add records *)

(** X1.  Whatever requests the application handles, in whatever order and
    with whatever outcome, the records the two tables held are still there,
    unchanged and in their place; records are only added at the end, at most
    one for each request. *)
Theorem requests_only_append :
  forall rs d,
    extends (users d) (users (serve rs d))
    /\ extends (sessions d) (sessions (serve rs d))
    /\ length (users (serve rs d)) + length (sessions (serve rs d))
       <= length (users d) + length (sessions d) + length rs.
Proof. exact serve_extends. Qed.

(** ** X2: the constraints of the tables are kept *)

(** X2.  If the store satisfies the constraints of its tables (user ids,
    emails and session ids without repetition, user ids that are the text
    of a uuid, every session owned by a stored credential), it still does
    after any requests the application handles. *)
Theorem requests_keep_constraints :
  forall rs d, well_formed d -> well_formed (serve rs d).
Proof. exact serve_well_formed. Qed.

(** ** Sessions that resolve *)

Lemma NoDup_map_eq : forall A B (f : A -> B) (l : list A) a b,
  NoDup (map f l) -> In a l -> In b l -> f a = f b -> a = b.
Proof.
  intros A B f l a b. induction l as [|x l IH]; cbn [map]; intros Hnd Ha Hb Hf.
  - destruct Ha.
  - inversion Hnd as [|y l' Hx Hl]; subst.
    destruct Ha as [->|Ha], Hb as [->|Hb].
    + reflexivity.
    + exfalso. apply Hx. rewrite Hf. apply in_map. exact Hb.
    + exfalso. apply Hx. rewrite <- Hf. apply in_map. exact Ha.
    + exact (IH Hl Ha Hb Hf).
Qed.

Lemma joined_intro : forall d s u,
  In s (sessions d) -> In u (users d) -> s_userId s = Some (u_id u) ->
  In [("id", s_id s); ("userId", u_id u); ("name", u_name u); ("email", u_email u)]
     (joined d (s_id s)).
Proof.
  intros d s u Hs Hu Hown. unfold joined.
  apply in_flat_map. exists s. split; [exact Hs|].
  rewrite String.eqb_refl. apply in_flat_map. exists u. split; [exact Hu|].
  rewrite Hown. cbn [eq_text]. rewrite String.eqb_refl. left. reflexivity.
Qed.

Lemma joined_single : forall d id r1 r2,
  well_formed d -> In r1 (joined d id) -> In r2 (joined d id) -> r1 = r2.
Proof.
  intros d id r1 r2 (Hid & _ & Hsid & _ & _) H1 H2.
  destruct (joined_in _ _ _ H1) as (s1 & u1 & Hs1 & Hi1 & Hu1 & Ho1 & ->).
  destruct (joined_in _ _ _ H2) as (s2 & u2 & Hs2 & Hi2 & Hu2 & Ho2 & ->).
  assert (s1 = s2) by (apply (NoDup_map_eq _ _ s_id (sessions d)); congruence).
  subst s2.
  assert (u1 = u2) by (apply (NoDup_map_eq _ _ u_id (users d)); congruence).
  subst u2. reflexivity.
Qed.

Lemma joined_hd : forall d id row,
  well_formed d -> In row (joined d id) -> hd_error (joined d id) = Some row.
Proof.
  intros d id row Hwf Hin.
  destruct (joined d id) as [|r rest] eqn:Hj; [destruct Hin|].
  cbn [hd_error]. f_equal. apply (joined_single d id); try assumption.
  - rewrite Hj. left. reflexivity.
  - rewrite Hj. exact Hin.
Qed.

Lemma extends_in : forall A (l l' : list A) x, extends l l' -> In x l -> In x l'.
Proof. intros A l l' x [more ->] H. apply in_or_app. left. exact H. Qed.

Lemma joined_mono : forall d d' id row,
  extends (users d) (users d') -> extends (sessions d) (sessions d') ->
  In row (joined d id) -> In row (joined d' id).
Proof.
  intros d d' id row Hu Hs Hin.
  destruct (joined_in _ _ _ Hin) as (s & u & Hs1 & <- & Hu1 & Ho & ->).
  apply joined_intro; [exact (extends_in _ _ _ _ Hs Hs1)
                      |exact (extends_in _ _ _ _ Hu Hu1)|exact Ho].
Qed.

Lemma middleware_passes : forall text id row e d,
  text <> EmptyString ->
  outage e 0 = false ->
  Uuid.parse text = Some id ->
  hd_error (joined d id) = Some row ->
  run (session_middleware (Some text)) e d
  = (inr (Next (Some row)),
     State d [SelectSessionUser (Some text)] [SessionMiddleware]).
Proof.
  intros text id row e d Hne Hup Hid Hrow. exec.
  rewrite (falsy_some _ Hne). reduce. rewrite Hup, Hid. reduce.
  rewrite Hrow. reflexivity.
Qed.

Lemma session_stays : forall tok e d user st rs e',
  well_formed d ->
  run (session_middleware tok) e d = (inr (Next user), st) ->
  outage e' 0 = false ->
  run (session_middleware tok) e' (serve rs d)
  = (inr (Next user), State (serve rs d) [SelectSessionUser tok] [SessionMiddleware]).
Proof.
  intros tok e d user st rs e' Hwf Hrun Hup.
  destruct (middleware_next _ _ _ _ _ Hrun)
    as (text & id & row & -> & Hne & Hid & Hrow & -> & _).
  apply (middleware_passes text id row); try assumption.
  apply joined_hd; [apply serve_well_formed; exact Hwf|].
  destruct (serve_extends rs d) as (Hu & Hs & _).
  apply (joined_mono d); try assumption.
  destruct (joined d id); [discriminate|]. injection Hrow as ->. left. reflexivity.
Qed.

(** ** Sessions that login issues *)

Lemma falsy_false : forall v, falsy v = false -> exists s, v = Some s /\ s <> EmptyString.
Proof.
  intros [[|c s]|] H; try discriminate. exists (String c s). split; [reflexivity|discriminate].
Qed.

Lemma login_issued : forall b e d r st,
  run (login b) e d = (inr r, st) -> status r = 200 ->
  exists m p u rest s uid,
    (falsy_field (email b) = false /\ param (email b) = Some m /\ text_in m = true)
    /\ (password b = Str p /\ p <> EmptyString)
    /\ matching d (Some m) = u :: rest
    /\ u_salt u = Some s
    /\ Crypto.createHmac_sha256_hex s p = u_password u
    /\ Uuid.parse (u_id u) = Some uid
    /\ existsb (fun u' => String.eqb (u_id u') uid) (users d) = true
    /\ existsb (fun x => String.eqb (s_id x) (new_id e)) (sessions d) = false
    /\ st_db st = Db (users d) (sessions d ++ [Session (new_id e) (Some uid) (clock e)])%list
    /\ r = json 200 [("message", "Login successfully"); ("sessionId", new_id e)].
Proof.
  intros b e d r st Hrun Hst. exec.
  destruct (falsy_field (email b)) eqn:He; reduce;
    [inversion Hrun; subst; discriminate|].
  destruct (falsy_field (password b)) eqn:Hp; reduce;
    [inversion Hrun; subst; discriminate|].
  destruct (truthy_param _ He) as (m & Hm).
  rewrite Hm in *.
  destruct (outage e 0); reduce; [discriminate|].
  destruct (text_in m) eqn:Ht; reduce; [|discriminate].
  destruct (matching d (Some m)) as [|u rest] eqn:Hmatch; reduce;
    [inversion Hrun; subst; discriminate|].
  destruct (u_salt u) as [s|] eqn:Hs; reduce; [|discriminate].
  destruct (as_string (password b)) as [p|] eqn:Hpw; reduce; [|discriminate].
  apply as_string_str in Hpw.
  destruct (String.eqb (Crypto.createHmac_sha256_hex s p) (u_password u)) eqn:Hh;
    reduce; [|inversion Hrun; subst; discriminate].
  destruct (outage e 1); reduce; [discriminate|].
  destruct (Uuid.parse (u_id u)) as [uid|] eqn:Hid; reduce; [|discriminate].
  destruct (existsb _ (sessions d)) eqn:Hpk; reduce; [discriminate|].
  destruct (existsb _ (users d)) eqn:Hfk; reduce; [|discriminate].
  rewrite String.eqb_refl in Hrun. inversion Hrun; subst.
  apply String.eqb_eq in Hh.
  exists m, p, u, rest, s, uid. repeat split; try assumption.
  intros ->. rewrite Hpw in Hp. discriminate Hp.
Qed.

Lemma matching_in : forall d m u rest,
  matching d (Some m) = u :: rest -> In u (users d) /\ u_email u = m.
Proof.
  intros d m u rest H.
  assert (Hin : In u (matching d (Some m))) by (rewrite H; left; reflexivity).
  unfold matching in Hin. apply filter_In in Hin. destruct Hin as (Hin & Heq).
  cbn [eq_text] in Heq. apply String.eqb_eq in Heq. split; assumption.
Qed.

(** ** X3: login issues a session only to the holder of the password *)

(** X3.  Whenever login is answered 200, the request carried an email that
    is not falsy and a password that is a non-empty string, the stored
    credential the lookup gave first for the email, as the text the store
    is sent for it, has a salt under which the HMAC-SHA256 of the supplied
    password is its stored hash, and the one record the request added is a
    session owned by that credential whose id is the sessionId of the
    answer. *)
Theorem login_only_on_matching_hash :
  forall b e d r st,
    run (login b) e d = (inr r, st) -> status r = 200 ->
    exists m p u s uid,
      falsy_field (email b) = false /\ param (email b) = Some m
      /\ password b = Str p /\ p <> EmptyString
      /\ In u (users d) /\ u_email u = m
      /\ hd_error (matching d (Some m)) = Some u
      /\ u_salt u = Some s
      /\ u_password u = Crypto.createHmac_sha256_hex s p
      /\ Uuid.parse (u_id u) = Some uid
      /\ st_db st
         = Db (users d) (sessions d ++ [Session (new_id e) (Some uid) (clock e)])%list
      /\ sent r = Json [("message", "Login successfully"); ("sessionId", new_id e)].
Proof.
  intros b e d r st Hrun Hst.
  destruct (login_issued _ _ _ _ _ Hrun Hst)
    as (m & p & u & rest & s & uid & (He & Hm & _) & (Hp & Hpne) & Hmatch & Hs & Hh
        & Hid & _ & _ & Hdb & ->).
  destruct (matching_in _ _ _ _ Hmatch) as (Hin & Hem).
  exists m, p, u, s, uid. rewrite Hmatch.
  repeat split; try assumption. symmetry. exact Hh.
Qed.

Lemma parse_nonempty : forall text id, Uuid.parse text = Some id -> text <> EmptyString.
Proof. intros text id H ->. vm_compute in H. discriminate H. Qed.

Lemma login_well_formed : forall b e d r st,
  well_formed d -> run (login b) e d = (inr r, st) -> well_formed (st_db st).
Proof.
  intros b e d r st Hwf Hrun.
  apply effect_well_formed with (e := e) (d := d); [|exact Hwf].
  pose proof (login_effect b e d) as H. unfold store in H. rewrite Hrun in H. exact H.
Qed.

Lemma greeting_behind_session : forall h user e d st,
  run (session_middleware h) e d = (inr (Next user), st) ->
  run (app (greeting_request h)) e d
  = (inr (Response 200 (Text "Hello, World!")),
     State (st_db st) (st_log st) (st_visited st ++ [Greeting])%list).
Proof.
  intros h user e d st Hrun.
  rewrite (app_other_route (greeting_request h) e d eq_refl).
  cbn [session_id greeting_request]. rewrite Hrun. reflexivity.
Qed.

Lemma issued_session_resolves : forall b e d r st rs e',
  well_formed d ->
  run (login b) e d = (inr r, st) -> status r = 200 ->
  outage e' 0 = false ->
  exists u,
    hd_error (matching d (param (email b))) = Some u
    /\ run (session_middleware (Some (new_id e))) e' (serve rs (st_db st))
       = (inr (Next (Some [("id", new_id e); ("userId", u_id u);
                           ("name", u_name u); ("email", u_email u)])),
          State (serve rs (st_db st)) [SelectSessionUser (Some (new_id e))]
                [SessionMiddleware]).
Proof.
  intros b e d r st rs e' Hwf Hrun Hst Hup.
  pose proof (login_well_formed _ _ _ _ _ Hwf Hrun) as Hwf1.
  destruct (login_issued _ _ _ _ _ Hrun Hst)
    as (m & p & u & rest & s & uid & (_ & Hm & _) & _ & Hmatch & _ & _
        & Hid & _ & _ & Hdb & _).
  destruct (matching_in _ _ _ _ Hmatch) as (Hin & _).
  destruct Hwf as (_ & _ & _ & Hcan & _).
  rewrite (Hcan u Hin) in Hid. injection Hid as <-.
  exists u. rewrite Hm, Hmatch. split; [reflexivity|].
  apply (middleware_passes (new_id e) (new_id e)).
  - exact (parse_nonempty _ _ (parse_v4 _)).
  - exact Hup.
  - apply parse_v4.
  - apply joined_hd; [apply serve_well_formed; exact Hwf1|].
    destruct (serve_extends rs (st_db st)) as (Hu & Hs & _).
    apply (joined_mono (st_db st)); try assumption.
    apply (joined_intro (st_db st) (Session (new_id e) (Some (u_id u)) (clock e)) u).
    + rewrite Hdb. cbn [sessions]. apply in_or_app. right. left. reflexivity.
    + rewrite Hdb. exact Hin.
    + reflexivity.
Qed.

(** ** X4: the session id of a login opens the routes behind the middleware *)

(** X4.  On a store that satisfies the constraints of its tables, the
    sessionId of a login answered 200 is a token the session middleware
    accepts, at once and after any further requests, whenever the store is
    in reach: it passes the request on with the id of that session and the
    id, name and email of the credential the login looked up, and GET /
    with that header is answered 200 with the greeting. *)
Theorem login_session_resolves :
  forall b e d r st rs e',
    well_formed d ->
    run (login b) e d = (inr r, st) -> status r = 200 ->
    outage e' 0 = false ->
    exists u,
      hd_error (matching d (param (email b))) = Some u
      /\ sent r = Json [("message", "Login successfully"); ("sessionId", new_id e)]
      /\ reply (run (session_middleware (Some (new_id e))) e' (serve rs (st_db st)))
         = inr (Next (Some [("id", new_id e); ("userId", u_id u);
                            ("name", u_name u); ("email", u_email u)]))
      /\ reply (run (app (greeting_request (Some (new_id e)))) e' (serve rs (st_db st)))
         = inr (Response 200 (Text "Hello, World!")).
Proof.
  intros b e d r st rs e' Hwf Hrun Hst Hup.
  destruct (issued_session_resolves b e d r st rs e' Hwf Hrun Hst Hup)
    as (u & Hu & Hmw).
  destruct (login_issued _ _ _ _ _ Hrun Hst)
    as (_ & _ & _ & _ & _ & _ & _ & _ & _ & _ & _ & _ & _ & _ & _ & ->).
  exists u. split; [exact Hu|]. split; [reflexivity|].
  unfold reply. rewrite (greeting_behind_session _ _ _ _ _ Hmw), Hmw.
  split; reflexivity.
Qed.

(** ** X5: a session that resolves keeps resolving *)

(** X5.  On a store that satisfies the constraints of its tables, a token
    the session middleware has accepted is accepted again, with the same
    identity, after any requests the application handles in between,
    whenever the store is in reach: no request ends or changes a session. *)
Theorem sessions_never_end :
  forall tok e d user st rs e',
    well_formed d ->
    run (session_middleware tok) e d = (inr (Next user), st) ->
    outage e' 0 = false ->
    reply (run (session_middleware tok) e' (serve rs d)) = inr (Next user)
    /\ reply (run (app (greeting_request tok)) e' (serve rs d))
       = inr (Response 200 (Text "Hello, World!")).
Proof.
  intros tok e d user st rs e' Hwf Hrun Hup.
  pose proof (session_stays tok e d user st rs e' Hwf Hrun Hup) as H.
  unfold reply. rewrite (greeting_behind_session _ _ _ _ _ H), H.
  split; reflexivity.
Qed.

(** ** X6: a credential stays as it was created *)

Lemma matching_extends : forall d d' m u rest,
  extends (users d) (users d') ->
  matching d m = u :: rest ->
  exists rest', matching d' m = u :: rest'.
Proof.
  intros d d' m u rest [more Hmore] Hm. unfold matching in *.
  rewrite Hmore, filter_app, Hm. eexists. reflexivity.
Qed.

(** X6.  After a signup answered 201 for a non-empty email of at most 255
    characters and a password that is a non-empty string, and after any
    further requests the application handles, a login with that email and
    that password, with the store in reach and a session uuid not yet in
    use, is answered 200 with its sessionId; and a login with that email
    and a non-empty password whose hash under the salt drawn at signup
    differs is answered 400 with the credentials error: no request changes
    or removes a credential. *)
Theorem credential_outlives_requests :
  forall b1 e1 d r1 st1 m p rs e2 n2,
    run (signup b1) e1 d = (inr r1, st1) -> status r1 = 201 ->
    param (email b1) = Some m -> password b1 = Str p ->
    m <> EmptyString -> chars m <= 255 -> p <> EmptyString ->
    (forall i, outage e2 i = false) ->
    existsb (fun x => String.eqb (s_id x) (new_id e2))
            (sessions (serve rs (st_db st1))) = false ->
    reply (run (login (Body n2 (Str m) (Str p))) e2 (serve rs (st_db st1)))
    = inr (json 200 [("message", "Login successfully"); ("sessionId", new_id e2)])
    /\ forall p',
         p' <> EmptyString ->
         Crypto.createHmac_sha256_hex (salt_of e1) p'
         <> Crypto.createHmac_sha256_hex (salt_of e1) p ->
         run (login (Body n2 (Str m) (Str p'))) e2 (serve rs (st_db st1))
         = (inr (json 400 credentials_error),
            State (serve rs (st_db st1)) [SelectUserCredential (Some m)] [UserLogin]).
Proof.
  intros b1 e1 d r1 st1 m p rs e2 n2 Hrun Hst Hm Hp Hmne Hle Hpne Hup Hfresh.
  destruct (signup_created _ _ _ _ _ Hrun Hst)
    as (n & m0 & p0 & n' & m' & (_ & Hm0 & Hp0) & (_ & Htm & _ & Hvm) & (Hnone & _) & Hdb & _).
  rewrite Hm in Hm0. injection Hm0 as <-.
  rewrite Hp in Hp0. cbn [as_string] in Hp0. injection Hp0 as <-.
  rewrite (varchar_short 255 "email" m Hle) in Hvm. injection Hvm as <-.
  set (u := User (new_id e1) n' m
              (Crypto.createHmac_sha256_hex (salt_of e1) p) (Some (salt_of e1))) in *.
  assert (Hmatch : matching (st_db st1) (Some m) = [u])
    by (rewrite Hdb; apply matching_snoc; [assumption|reflexivity]).
  destruct (serve_extends rs (st_db st1)) as (Hext & _ & _).
  destruct (matching_extends _ _ _ _ _ Hext Hmatch) as (rest & Hlater).
  assert (Hem : falsy_field (Str m) = false) by (apply falsy_field_str; assumption).
  split.
  - unfold reply.
    rewrite (login_correct_password (Body n2 (Str m) (Str p)) e2
               (serve rs (st_db st1)) m u rest (salt_of e1) p (u_id u)).
    + reflexivity.
    + exact Hem.
    + apply falsy_field_str; assumption.
    + exact Hup.
    + reflexivity.
    + exact Htm.
    + exact Hlater.
    + reflexivity.
    + reflexivity.
    + reflexivity.
    + apply parse_v4.
    + apply existsb_exists. exists u. split; [|apply String.eqb_refl].
      apply (extends_in _ _ _ _ Hext). rewrite Hdb. cbn [users].
      apply in_or_app. right. left. reflexivity.
    + exact Hfresh.
  - intros q Hq Hne.
    apply (login_wrong_password (Body n2 (Str m) (Str q)) e2
             (serve rs (st_db st1)) m u rest (salt_of e1) q).
    + exact Hem.
    + apply falsy_field_str; assumption.
    + apply Hup.
    + reflexivity.
    + exact Htm.
    + exact Hlater.
    + reflexivity.
    + reflexivity.
    + exact Hne.
Qed.

(** ** X7: the statuses the application sends *)

Lemma middleware_sends_401 : forall tok e d r st,
  run (session_middleware tok) e d = (inr (Send r), st) -> status r = 401.
Proof.
  intros tok e d r st. exec. cases; intros H; inversion H; reflexivity.
Qed.

(** X7.  A request the JSON parser refuses is answered with the error
    response of the parser.  A request it hands on is answered, if at all:
    with status 200, 201 or 400 when a route of the /user router takes it;
    otherwise with 401, with 404, or with 200 and the greeting, the last
    only for GET or HEAD on the root path. *)
Theorem statuses_of_the_application :
  forall i e d r st,
    run (index_js i) e d = (inr r, st) ->
    refused i = Some r
    \/ (refused i = None
        /\ ((user_router (handed i) <> None /\ In (status r) [200; 201; 400])
            \/ (user_router (handed i) = None
                /\ (status r = 401 \/ status r = 404
                    \/ (r = Response 200 (Text "Hello, World!")
                        /\ (verb (handed i) = GET \/ verb (handed i) = HEAD)
                        /\ path (handed i) = []))))).
Proof.
  intros i e d r st Hrun.
  destruct (refused i) as [r0|] eqn:Hparser.
  { left. rewrite (index_js_refused i r0 e d Hparser) in Hrun.
    injection Hrun as <- _. reflexivity. }
  right. split; [reflexivity|].
  rewrite (index_js_handed i e d Hparser) in Hrun.
  set (req := handed i) in *.
  destruct (user_router req) as [h|] eqn:Hr.
  - left. split; [discriminate|].
    rewrite (app_router_route _ _ _ _ Hr) in Hrun.
    destruct (user_router_some _ _ Hr) as [-> | ->].
    + destruct (signup_shape (req_body req) e d) as (_ & _ & Hs & _).
      rewrite Hrun in Hs. destruct (Hs r eq_refl) as [-> | ->]; cbn; auto.
    + destruct (login_shape (req_body req) e d) as (_ & _ & Hs & _).
      rewrite Hrun in Hs. destruct (Hs r eq_refl) as [-> | ->]; cbn; auto.
  - right. split; [reflexivity|].
    rewrite (app_other_route _ _ _ Hr) in Hrun.
    destruct (run (session_middleware (session_id req)) e d)
      as [[err|[r'|user]] st'] eqn:Hmw.
    + discriminate.
    + injection Hrun as <- _. left. exact (middleware_sends_401 _ _ _ _ _ Hmw).
    + destruct (routes_run req e st') as (r' & l & Hroutes & Hl).
      rewrite Hroutes in Hrun. injection Hrun as <- _.
      destruct Hl as [(_ & -> & Hv & Hp) | (_ & H404)]; auto.
Qed.

(** ** X8: ensureAuthenticated behind the session middleware *)

(** X8.  ensureAuthenticated answers 401 exactly when req.user is not set
    and otherwise passes the request on with req.user as it was; placed
    after the session middleware it never answers 401, since the middleware
    passes a request on only with req.user set. *)
Theorem guard_behind_session_middleware :
  (forall user,
     (ensureAuthenticated user
      = Send (json 401 [("error", "You must be authenticated")]) <-> user = None)
     /\ (user <> None -> ensureAuthenticated user = Next user))
  /\ forall tok e d user st,
       run (session_middleware tok) e d = (inr (Next user), st) ->
       ensureAuthenticated user = Next user.
Proof.
  split.
  - intros [row|]; cbn [ensureAuthenticated]; repeat split; try congruence;
      intros H; try discriminate H; reflexivity.
  - intros tok e d user st Hrun.
    destruct (middleware_next _ _ _ _ _ Hrun) as (_ & _ & row & _ & _ & _ & _ & -> & _).
    reflexivity.
Qed.

(** ** X9: the application before and after the session middleware *)

(** X9.  A request a route of the /user router takes runs alike in the two
    listings of index.js.  For any other request the first listing sends no
    query and leaves the store as it is, and whenever the second listing
    answers such a request with a status other than 401 its response is the
    one of the first listing: the middleware only refuses, it alters no
    response. *)
Theorem session_middleware_only_gates :
  forall req e d,
    (user_router req <> None -> run (app req) e d = run (app_v1 req) e d)
    /\ (user_router req = None ->
        st_log (snd (run (app_v1 req) e d)) = []
        /\ store (run (app_v1 req) e d) = d
        /\ forall r st,
             run (app req) e d = (inr r, st) -> status r <> 401 ->
             reply (run (app_v1 req) e d) = inr r).
Proof.
  intros req e d. split.
  - intros Hr. unfold run, app, app_v1. destruct (user_router req); [reflexivity|].
    congruence.
  - intros Hr.
    assert (Hv1 : run (app_v1 req) e d = routes req e (State d [] [])).
    { unfold run, app_v1. rewrite Hr. reflexivity. }
    destruct (routes_run req e (State d [] [])) as (r1 & l1 & Hr1 & _).
    rewrite Hv1, Hr1. unfold store. cbn [snd fst st_log st_db].
    repeat split.
    intros r st Hrun Hne. rewrite (app_other_route _ _ _ Hr) in Hrun.
    destruct (run (session_middleware (session_id req)) e d)
      as [[err|[r'|user]] st'] eqn:Hmw.
    + discriminate.
    + injection Hrun as <- _. exfalso. apply Hne.
      exact (middleware_sends_401 _ _ _ _ _ Hmw).
    + unfold reply. cbn [fst].
      revert Hr1 Hrun. unfold routes, enter, bind, ret.
      destruct (verb req), (path req); intros H1 H2;
        injection H1 as <- _; injection H2 as <- _; reflexivity.
Qed.

(** ** X10: the salt and the hash signup stores *)

Transparent Crypto.createHmac_sha256_hex Crypto.toString_hex.











Opaque Crypto.createHmac_sha256_hex Crypto.toString_hex.


(** ** X11: what signup does with the password *)


(** ** X12: one credential, several sessions *)

(** X12.  On a store that satisfies the constraints of its tables, two
    logins with the same email that are both answered 200 return two
    different sessionIds and add two sessions of the same credential, and
    afterwards the session middleware, with the store in reach, accepts
    either token with the id of that credential: a login ends no earlier
    session. *)
Theorem logins_add_sessions :
  forall b1 b2 e1 e2 d r1 st1 r2 st2 e',
    well_formed d ->
    run (login b1) e1 d = (inr r1, st1) -> status r1 = 200 ->
    run (login b2) e2 (st_db st1) = (inr r2, st2) -> status r2 = 200 ->
    email b2 = email b1 ->
    outage e' 0 = false ->
    new_id e1 <> new_id e2
    /\ exists u,
         hd_error (matching d (param (email b1))) = Some u
         /\ users (st_db st2) = users d
         /\ sessions (st_db st2)
            = (sessions d ++ [Session (new_id e1) (Some (u_id u)) (clock e1);
                              Session (new_id e2) (Some (u_id u)) (clock e2)])%list
         /\ reply (run (session_middleware (Some (new_id e1))) e' (st_db st2))
            = inr (Next (Some [("id", new_id e1); ("userId", u_id u);
                               ("name", u_name u); ("email", u_email u)]))
         /\ reply (run (session_middleware (Some (new_id e2))) e' (st_db st2))
            = inr (Next (Some [("id", new_id e2); ("userId", u_id u);
                               ("name", u_name u); ("email", u_email u)])).
Proof.
  intros b1 b2 e1 e2 d r1 st1 r2 st2 e' Hwf Hrun1 Hst1 Hrun2 Hst2 Hsame Hup.
  pose proof (login_well_formed _ _ _ _ _ Hwf Hrun1) as Hwf1.
  pose proof (login_well_formed _ _ _ _ _ Hwf1 Hrun2) as Hwf2.
  destruct (login_issued _ _ _ _ _ Hrun1 Hst1)
    as (m & p1 & u & rest & s1 & uid1 & (_ & Hm & _) & _ & Hmatch & _ & _
        & Hid1 & _ & _ & Hdb1 & _).
  destruct (login_issued _ _ _ _ _ Hrun2 Hst2)
    as (m2 & p2 & u2 & rest2 & s2 & uid2 & (_ & Hm2 & _) & _ & Hmatch2 & _ & _
        & Hid2 & _ & Hpk2 & Hdb2 & _).
  rewrite Hsame, Hm in Hm2. injection Hm2 as <-.
  assert (Hmatch1 : matching (st_db st1) (Some m) = matching d (Some m))
    by (rewrite Hdb1; reflexivity).
  rewrite Hmatch1, Hmatch in Hmatch2. injection Hmatch2 as <- <-.
  destruct (matching_in _ _ _ _ Hmatch) as (Hin & _).
  pose proof Hwf as (_ & _ & _ & Hcan & _).
  rewrite (Hcan u Hin) in Hid1, Hid2.
  injection Hid1 as <-. injection Hid2 as <-.
  rewrite Hdb1 in Hdb2. cbn [users sessions] in Hdb2.
  rewrite <- app_assoc in Hdb2. cbn [Datatypes.app] in Hdb2.
  split.
  - intros Heq. rewrite Hdb1 in Hpk2. cbn [sessions] in Hpk2.
    rewrite existsb_app in Hpk2. cbn [existsb s_id] in Hpk2.
    rewrite Heq, String.eqb_refl, orb_true_r in Hpk2. discriminate Hpk2.
  - exists u. rewrite Hm, Hmatch, Hdb2. cbn [users sessions hd_error].
    do 3 (split; [reflexivity|]).
    rewrite <- Hdb2. unfold reply.
    assert (Hpass : forall e0 c0,
              In (Session (new_id e0) (Some (u_id u)) c0) (sessions (st_db st2)) ->
              run (session_middleware (Some (new_id e0))) e' (st_db st2)
              = (inr (Next (Some [("id", new_id e0); ("userId", u_id u);
                                  ("name", u_name u); ("email", u_email u)])),
                 State (st_db st2) [SelectSessionUser (Some (new_id e0))]
                       [SessionMiddleware])).
    { intros e0 c0 Hs.
      apply (middleware_passes (new_id e0) (new_id e0)).
      - exact (parse_nonempty _ _ (parse_v4 _)).
      - exact Hup.
      - apply parse_v4.
      - apply joined_hd; [exact Hwf2|].
        apply (joined_intro (st_db st2) (Session (new_id e0) (Some (u_id u)) c0) u).
        + exact Hs.
        + rewrite Hdb2. exact Hin.
        + reflexivity. }
    rewrite (Hpass e1 (clock e1)), (Hpass e2 (clock e2)).
    + split; reflexivity.
    + rewrite Hdb2. cbn [sessions]. apply in_or_app. right. right. left. reflexivity.
    + rewrite Hdb2. cbn [sessions]. apply in_or_app. right. left. reflexivity.
Qed.

(** ** X13: when signup succeeds *)

Lemma matching_nil_existsb : forall d m,
  matching d (Some m) = [] ->
  existsb (fun u => String.eqb (u_email u) m) (users d) = false.
Proof.
  intros d m H. unfold matching in H. cbn [eq_text] in H.
  induction (users d) as [|u l IH]; [reflexivity|].
  cbn [filter existsb] in *. destruct (String.eqb (u_email u) m); [discriminate|].
  exact (IH H).
Qed.

Lemma signup_fresh : forall b n m p e d stored_name stored_email,
  param (name b) = Some n -> param (email b) = Some m -> password b = Str p ->
  text_in n = true -> text_in m = true ->
  varchar 255 "name" n = inr stored_name ->
  varchar 255 "email" m = inr stored_email ->
  (forall i, outage e i = false) ->
  matching d (Some m) = [] ->
  matching d (Some stored_email) = [] ->
  existsb (fun u => String.eqb (u_id u) (new_id e)) (users d) = false ->
  run (signup b) e d
  = (inr (json 201 [("userId", new_id e); ("message", "User created successfully")]),
     State (Db (users d ++ [User (new_id e) stored_name stored_email
                              (Crypto.createHmac_sha256_hex (salt_of e) p)
                              (Some (salt_of e))])%list (sessions d))
           [SelectUserEmail (Some m);
            InsertUser (Some n) (Some m)
              (Crypto.createHmac_sha256_hex (salt_of e) p) (salt_of e)]
           [UserSignup]).
Proof.
  intros b n m p e d n' m' Hn Hm Hp Htn Htm Hvn Hvm Hup Hnone Hfree Hpk.
  unfold salt_of. exec. reduce.
  rewrite Hup, Hm, Htm, Hnone. reduce. rewrite Hp. reduce.
  rewrite Hup, Hn, Htn, Hvn, Hvm. reduce.
  rewrite Hpk, (matching_nil_existsb _ _ Hfree). reduce.
  rewrite String.eqb_refl. reflexivity.
Qed.

(** X13.  Take a signup whose name and email reach the store as texts
    without the octet 0 that [varchar(255)] takes (at most 255 characters,
    or more with only spaces in excess, then cut to 255), and whose
    password is a string.  If no stored credential has the email, as sent
    or as stored, and the store is in reach and the user uuid drawn is not
    yet in use, the signup is answered 201 with the userId and adds exactly
    the credential record of the name and email as stored, with the salt
    drawn and the hash of the password under it; it sends two queries, the
    lookup and the insert. *)
Theorem signup_with_unused_email :
  forall b n m p e d stored_name stored_email,
    param (name b) = Some n -> param (email b) = Some m -> password b = Str p ->
    text_in n = true -> text_in m = true ->
    varchar 255 "name" n = inr stored_name ->
    varchar 255 "email" m = inr stored_email ->
    (forall i, outage e i = false) ->
    matching d (Some m) = [] ->
    matching d (Some stored_email) = [] ->
    existsb (fun u => String.eqb (u_id u) (new_id e)) (users d) = false ->
    reply (run (signup b) e d)
    = inr (json 201 [("userId", new_id e); ("message", "User created successfully")])
    /\ store (run (signup b) e d)
       = Db (users d ++ [User (new_id e) stored_name stored_email
                           (Crypto.createHmac_sha256_hex (salt_of e) p)
                           (Some (salt_of e))])%list (sessions d)
    /\ length (st_log (snd (run (signup b) e d))) = 2.
Proof.
  intros b n m p e d n' m' Hn Hm Hp Htn Htm Hvn Hvm Hup Hnone Hfree Hpk.
  unfold reply, store.
  rewrite (signup_fresh b n m p e d n' m' Hn Hm Hp Htn Htm Hvn Hvm Hup Hnone Hfree Hpk).
  repeat split.
Qed.

(** ** X14: an email stays taken *)


(** ** Runs on the sample requests *)

Lemma no_db_well_formed : well_formed no_db.
Proof.
  repeat split; try constructor; intros ? [].
Qed.

Lemma store0_well_formed : well_formed store0.
Proof.
  apply effect_well_formed with (e := env0) (d := no_db);
    [apply signup_effect|apply no_db_well_formed].
Qed.

Lemma store1_well_formed : well_formed store1.
Proof.
  apply effect_well_formed with (e := env1) (d := store0);
    [apply login_effect|apply store0_well_formed].
Qed.

Lemma requests_keep_constraints_witness : well_formed (serve traffic no_db).
Proof.
  apply (requests_keep_constraints traffic no_db).
  repeat split; try constructor; intros ? [].
Defined.

Lemma login_only_on_matching_hash_witness :
  exists u s,
    In u (users store0) /\ u_email u = "john@example.com"
    /\ u_salt u = Some s
    /\ u_password u = Crypto.createHmac_sha256_hex s "mySecurePassword123".
Proof.
  destruct (login_only_on_matching_hash john env1 store0
              (json 200 [("message", "Login successfully"); ("sessionId", new_id env1)])
              (snd (run (login john) env1 store0)))
    as (m & p & u & s & uid & _ & Hm & Hp & _ & Hin & Hem & _ & Hs & Hh & _).
  - vm_compute. reflexivity.
  - reflexivity.
  - injection Hm as <-. injection Hp as <-.
    exists u, s. repeat split; assumption.
Defined.

Lemma login_session_resolves_witness :
  reply (run (app (greeting_request (Some (new_id env1)))) env0 (serve traffic store1))
  = inr (Response 200 (Text "Hello, World!")).
Proof.
  destruct (login_session_resolves john env1 store0
              (json 200 [("message", "Login successfully"); ("sessionId", new_id env1)])
              (snd (run (login john) env1 store0)) traffic env0)
    as (u & _ & _ & _ & H).
  - apply store0_well_formed.
  - vm_compute. reflexivity.
  - reflexivity.
  - reflexivity.
  - exact H.
Defined.

Lemma sessions_never_end_witness :
  reply (run (session_middleware (Some (new_id env1))) env2 (serve traffic store1))
  = inr (Next (Some [("id", new_id env1); ("userId", new_id env0);
                     ("name", "John Doe"); ("email", "john@example.com")])).
Proof.
  apply (sessions_never_end (Some (new_id env1)) env0 store1
           (Some [("id", new_id env1); ("userId", new_id env0);
                  ("name", "John Doe"); ("email", "john@example.com")])
           (State store1 [SelectSessionUser (Some (new_id env1))] [SessionMiddleware])
           traffic env2).
  - apply store1_well_formed.
  - vm_compute. reflexivity.
  - reflexivity.
Defined.

Lemma credential_outlives_requests_witness :
  reply (run (login john) env1 (serve traffic store0))
  = inr (json 200 [("message", "Login successfully"); ("sessionId", new_id env1)]).
Proof.
  apply (credential_outlives_requests john env0 no_db
           (json 201 [("userId", new_id env0); ("message", "User created successfully")])
           (snd (run (signup john) env0 no_db))
           "john@example.com" "mySecurePassword123" traffic env1 (name john)).
  - vm_compute. reflexivity.
  - reflexivity.
  - reflexivity.
  - reflexivity.
  - discriminate.
  - vm_compute. lia.
  - discriminate.
  - intros i. reflexivity.
  - vm_compute. reflexivity.
Defined.

Lemma statuses_of_the_application_witness :
  user_router (Request POST ["user"; "login"] None john) <> None
  /\ In 200 [200; 201; 400].
Proof.
  destruct (statuses_of_the_application
              (Incoming (Request POST ["user"; "login"] None john) None)
              env1 store0
              (json 200 [("message", "Login successfully"); ("sessionId", new_id env1)])
              (snd (run (login john) env1 store0)))
    as [H | (_ & [H | (Hnone & _)])].
  - vm_compute. reflexivity.
  - discriminate H.
  - exact H.
  - discriminate Hnone.
Defined.

Lemma guard_behind_session_middleware_witness :
  ensureAuthenticated
    (Some [("id", new_id env1); ("userId", new_id env0);
           ("name", "John Doe"); ("email", "john@example.com")])
  = Next (Some [("id", new_id env1); ("userId", new_id env0);
                ("name", "John Doe"); ("email", "john@example.com")]).
Proof.
  apply (proj2 guard_behind_session_middleware (Some (new_id env1)) env0 store1 _
           (State store1 [SelectSessionUser (Some (new_id env1))] [SessionMiddleware])).
  vm_compute. reflexivity.
Defined.

Lemma session_middleware_only_gates_witness :
  run (app (Request POST ["user"; "signup"] None john)) env0 no_db
  = run (app_v1 (Request POST ["user"; "signup"] None john)) env0 no_db
  /\ reply (run (app_v1 (greeting_request (Some (new_id env1)))) env0 store1)
     = inr (Response 200 (Text "Hello, World!")).
Proof.
  split.
  - apply (session_middleware_only_gates (Request POST ["user"; "signup"] None john)
             env0 no_db).
    discriminate.
  - destruct (proj2 (session_middleware_only_gates
                       (greeting_request (Some (new_id env1))) env0 store1) eq_refl)
      as (_ & _ & H).
    apply (H (Response 200 (Text "Hello, World!"))
             (State store1 [SelectSessionUser (Some (new_id env1))]
                    [SessionMiddleware; Greeting])).
    + vm_compute. reflexivity.
    + discriminate.
Defined.



Lemma logins_add_sessions_witness :
  new_id env1 <> new_id env2
  /\ exists u,
       hd_error (matching store0 (param (email john))) = Some u
       /\ users (store (run (login john) env2 store1)) = users store0
       /\ sessions (store (run (login john) env2 store1))
          = (sessions store0
             ++ [Session (new_id env1) (Some (u_id u)) (clock env1);
                 Session (new_id env2) (Some (u_id u)) (clock env2)])%list
       /\ reply (run (session_middleware (Some (new_id env1))) env0
                     (store (run (login john) env2 store1)))
          = inr (Next (Some [("id", new_id env1); ("userId", u_id u);
                             ("name", u_name u); ("email", u_email u)]))
       /\ reply (run (session_middleware (Some (new_id env2))) env0
                     (store (run (login john) env2 store1)))
          = inr (Next (Some [("id", new_id env2); ("userId", u_id u);
                             ("name", u_name u); ("email", u_email u)])).
Proof.
  apply (logins_add_sessions john john env1 env2 store0
           (json 200 [("message", "Login successfully"); ("sessionId", new_id env1)])
           (snd (run (login john) env1 store0))
           (json 200 [("message", "Login successfully"); ("sessionId", new_id env2)])
           (snd (run (login john) env2 store1)) env0).
  - apply store0_well_formed.
  - vm_compute. reflexivity.
  - reflexivity.
  - vm_compute. reflexivity.
  - reflexivity.
  - reflexivity.
  - reflexivity.
Defined.

Lemma signup_with_unused_email_witness :
  reply (run (signup jane) env2 store1)
  = inr (json 201 [("userId", new_id env2); ("message", "User created successfully")])
  /\ store (run (signup jane) env2 store1)
     = Db (users store1
           ++ [User (new_id env2) "Jane Doe" "jane@example.com"
                 (Crypto.createHmac_sha256_hex (salt_of env2) "anotherPassword456")
                 (Some (salt_of env2))])%list (sessions store1)
  /\ length (st_log (snd (run (signup jane) env2 store1))) = 2.
Proof.
  apply (signup_with_unused_email jane "Jane Doe" "jane@example.com"
           "anotherPassword456" env2 store1 "Jane Doe" "jane@example.com").
  - reflexivity.
  - reflexivity.
  - reflexivity.
  - reflexivity.
  - reflexivity.
  - reflexivity.
  - reflexivity.
  - intros i. reflexivity.
  - vm_compute. reflexivity.
  - vm_compute. reflexivity.
  - vm_compute. reflexivity.
Defined.

